(** * Request admission and OAuth facade of the Outlook MCP gateway

    A shallow embedding of the gateway's admission middleware
    ([auth/middleware.ts]), its OAuth metadata/proxy router
    ([auth/metadata.ts]) and its configuration ([config.ts]), together with
    the claim extractor, tenant gate and rate limiter the specification
    describes.

    Conventions of the embedding:
    - a JavaScript string is a [string]: HTTP header values reach Node as
      latin1 text, one code unit per [ascii];
    - a JS object used as a dictionary ([req.query], [req.body], the
      [Map]s held at module level) is a [gmap string _];
    - [URLSearchParams] is an ordered association list, because [set]
      keeps the position of the first occurrence and drops the others;
    - the clock ([Date.now()]), the random source ([randomUUID()]) and the
      upstream server ([fetch]) are explicit arguments;
    - what a handler does to the outside world is returned as a list of
      effects, in program order. *)

From Stdlib Require Import ZArith Ascii String List Bool Lia.
From stdpp Require Import base decidable option list strings gmap.
Import ListNotations.

Local Open Scope Z_scope.

(** ** JavaScript string primitives used by the handlers *)
Module Js.

(** Truthiness of a string value: only the empty string is falsy. *)
Definition truthy (s : string) : bool :=
  match s with
  | EmptyString => false
  | String _ _ => true
  end.

(** Truthiness of [x: string | undefined]. *)
Definition truthy_opt (o : option string) : bool :=
  match o with
  | None => false
  | Some s => truthy s
  end.

(** [s.startsWith(p)]. *)
Fixpoint startsWith (p s : string) : bool :=
  match p, s with
  | EmptyString, _ => true
  | String a p', String b s' => if Ascii.eqb a b then startsWith p' s' else false
  | String _ _, EmptyString => false
  end.

(** [s.substring(n)]: the suffix from index [n], empty past the end. *)
Fixpoint substring (n : nat) (s : string) : string :=
  match n, s with
  | O, _ => s
  | S n', String _ s' => substring n' s'
  | S _, EmptyString => EmptyString
  end.

(** White space and line terminators of ECMAScript among the code units
    below 256: TAB, LF, VT, FF, CR, SP and NBSP. *)
Definition isWhiteSpace (c : ascii) : bool :=
  match N_of_ascii c with
  | 9 | 10 | 11 | 12 | 13 | 32 | 160 => true
  | _ => false
  end%N.

Fixpoint trimStart (s : string) : string :=
  match s with
  | EmptyString => EmptyString
  | String c s' => if isWhiteSpace c then trimStart s' else s
  end.

Fixpoint trimEnd (s : string) : string :=
  match s with
  | EmptyString => EmptyString
  | String c s' =>
      match trimEnd s' with
      | EmptyString => if isWhiteSpace c then EmptyString else String c EmptyString
      | r => String c r
      end
  end.

(** [s.includes(p)]. *)
Fixpoint includes (p s : string) : bool :=
  startsWith p s ||
  match s with
  | EmptyString => false
  | String _ s' => includes p s'
  end.

(** [s.trim()]. *)
Definition trim (s : string) : string := trimEnd (trimStart s).

(** Every code unit of [s] is white space. *)
Fixpoint allWhiteSpace (s : string) : bool :=
  match s with
  | EmptyString => true
  | String c s' => isWhiteSpace c && allWhiteSpace s'
  end.

(** [xs.join(sep)]. *)
Fixpoint join (sep : string) (xs : list string) : string :=
  match xs with
  | [] => EmptyString
  | [x] => x
  | x :: rest => x +:+ sep +:+ join sep rest
  end.

(** What evaluating an expression can do: return a value or throw. *)
Inductive Thrown :=
| TokenValidationError (code message : string)
| OtherError (message : string).

Inductive Outcome (A : Type) :=
| Returns (a : A)
| Throws (e : Thrown).
Arguments Returns {A} a.
Arguments Throws {A} e.

End Js.

(** ** [auth/middleware.ts] *)
Module Middleware.
Import Js.

(** Modelled from the spec: the [ParsedToken] type is declared in
    [auth/token-validator.ts], which is not among the sources.  The
    middleware reads [oid] and [tid]; [upn] and [exp] are the
    principal-name claim and the expiry (epoch seconds) of the
    specification's ParsedClaims. *)
Record ParsedToken := {
  oid : string;
  tid : string;
  upn : option string;
  exp : Z
}.

(** [AuthenticatedRequest.auth]. *)
Record Auth := {
  token : string;
  userId : string;
  tenantId : string;
  parsedToken : ParsedToken
}.

(** The parts of [AuthenticatedRequest] the middleware reads or writes. *)
Record AuthenticatedRequest := {
  authorization : option string;   (* req.headers.authorization *)
  path : string;
  auth : option Auth;
  rateLimitUserId : option string
}.

Definition set_auth (a : Auth) (r : AuthenticatedRequest) : AuthenticatedRequest :=
  {| authorization := authorization r; path := path r;
     auth := Some a; rateLimitUserId := rateLimitUserId r |}.

Definition set_rateLimitUserId (u : string) (r : AuthenticatedRequest) : AuthenticatedRequest :=
  {| authorization := authorization r; path := path r;
     auth := auth r; rateLimitUserId := Some u |}.

(** Observable steps of a middleware run, in program order. *)
Inductive Effect :=
| CallParseToken (token : string)               (* parseToken(token) *)
| CallGetUserIdentifier (p : ParsedToken)       (* getUserIdentifier(p) *)
| SendJson (status : Z) (error error_description : string)
                                                (* res.status(s).json({..}) *)
| CallNext.                                     (* next() *)

Definition isSendJson (e : Effect) : bool :=
  match e with SendJson _ _ _ => true | _ => false end.
Definition isCallNext (e : Effect) : bool :=
  match e with CallNext => true | _ => false end.

Definition count (f : Effect -> bool) (es : list Effect) : nat :=
  length (filter (fun e => f e = true) es).

(** [getStatusCode]: the switch over [error.code]. *)
Definition getStatusCode (code : string) : Z :=
  if decide (code = "expired_token") then 401
  else if decide (code = "invalid_token") then 401
  else if decide (code = "tenant_not_allowed") then 403
  else 401.

Section WithTokenValidator.
(** [parseToken] and [getUserIdentifier] are imported from
    [auth/token-validator.ts]; either may throw. *)
Variable parseToken : string -> Outcome ParsedToken.
Variable getUserIdentifier : ParsedToken -> Outcome string.

(** The [catch] block of [bearerAuthMiddleware]. *)
Definition onCatch (e : Thrown) : Effect :=
  match e with
  | TokenValidationError code message =>
      SendJson (getStatusCode code) code message
  | OtherError _ =>
      SendJson 500 "server_error" "Authentication failed due to internal error"
  end.

(** [bearerAuthMiddleware(req, res, next)]: the request after the run
    and what the run did.  Logging is left out. *)
Definition bearerAuthMiddleware (req : AuthenticatedRequest)
  : AuthenticatedRequest * list Effect :=
  let authHeader := authorization req in
  if negb (truthy_opt authHeader) then
    (req, [SendJson 401 "invalid_request" "Missing Authorization header"])
  else
    let h := default EmptyString authHeader in
    if negb (startsWith "Bearer " h) then
      (req, [SendJson 401 "invalid_request"
               "Authorization header must use Bearer scheme"])
    else
      let token := trim (substring 7 h) in
      if negb (truthy token) then
        (req, [SendJson 401 "invalid_token" "Bearer token is empty"])
      else
        match parseToken token with
        | Throws e => (req, [CallParseToken token; onCatch e])
        | Returns parsed =>
            match getUserIdentifier parsed with
            | Throws e =>
                (req, [CallParseToken token; CallGetUserIdentifier parsed;
                       onCatch e])
            | Returns uid =>
                let req1 :=
                  set_auth {| token := token; userId := uid;
                              tenantId := tid parsed;
                              parsedToken := parsed |} req in
                let req2 := set_rateLimitUserId (oid parsed) req1 in
                (req2, [CallParseToken token; CallGetUserIdentifier parsed;
                        CallNext])
            end
        end.
End WithTokenValidator.

(** A request handler of the route, as Express sees it. *)
Definition Handler : Type :=
  AuthenticatedRequest -> AuthenticatedRequest * list Effect.

(** How Express runs a route's handlers: the following handler runs
    iff the current one called [next()]. *)
Fixpoint runChain (hs : list Handler) (req : AuthenticatedRequest)
  : AuthenticatedRequest * list Effect :=
  match hs with
  | [] => (req, [])
  | h :: rest =>
      let '(req1, es) := h req in
      if existsb isCallNext es then
        let '(req2, es') := runChain rest req1 in (req2, es ++ es')
      else (req1, es)
  end.

(** [app.get('/mcp', bearerAuthMiddleware, rateLimit, handleMcpRequest)]
    of [server.ts]; the rate-limit middleware and the MCP handler are
    arguments. *)
Definition mcpRoute parseToken getUserIdentifier (rateLimit handleMcpRequest : Handler)
  : Handler :=
  runChain [bearerAuthMiddleware parseToken getUserIdentifier;
            rateLimit; handleMcpRequest].

End Middleware.

(** ** [config.ts] *)
Module Config.

(** The fields of [Config] the admission layer and the OAuth router use. *)
Record Config := {
  clientId : string;
  clientSecret : option string;
  tenantId : string;
  rateLimitRequests : Z;
  rateLimitWindowMs : Z;
  allowedTenants : list string
}.

Record AuthEndpoints := {
  authority : string;
  authorizationEndpoint : string;
  tokenEndpoint : string
}.

(** [getAuthEndpoints(tenantId)]. *)
Definition getAuthEndpoints (tenantId : string) : AuthEndpoints :=
  let authority := "https://login.microsoftonline.com" in
  {| authority := authority;
     authorizationEndpoint := authority +:+ "/" +:+ tenantId +:+ "/oauth2/v2.0/authorize";
     tokenEndpoint := authority +:+ "/" +:+ tenantId +:+ "/oauth2/v2.0/token" |}.

End Config.

(** ** [URLSearchParams] *)
Module URLSearchParams.

(** The list of name-value tuples, in order. *)
Abbreviation t := (list (string * string)).

Definition remove (name : string) (ps : t) : t :=
  filter (fun p => p.1 <> name) ps.

(** [ps.set(name, value)]: overwrite the first tuple called [name] and
    drop the later ones; append when there is none. *)
Fixpoint set (name value : string) (ps : t) : t :=
  match ps with
  | [] => [(name, value)]
  | (k, v) :: rest =>
      if decide (k = name) then (name, value) :: remove name rest
      else (k, v) :: set name value rest
  end.

(** [ps.get(name)]: the first value, or [null]. *)
Fixpoint get (name : string) (ps : t) : option string :=
  match ps with
  | [] => None
  | (k, v) :: rest => if decide (k = name) then Some v else get name rest
  end.

(** [ps.getAll(name)]. *)
Definition getAll (name : string) (ps : t) : list string :=
  (filter (fun p => p.1 = name) ps).*2.

End URLSearchParams.

(** ** [auth/metadata.ts]: registration, authorize and token endpoints *)
Module Metadata.
Import Js Config.

(** *** Dynamic client registration *)

Record RegisteredClient := {
  client_id : string;
  client_secret : option string;
  client_name : option string;
  redirect_uris : list string;
  client_id_issued_at : Z
}.

(** The request body of [POST /register], as the handler types it. *)
Module Body.
Record t := {
  client_name : option string;
  redirect_uris : option (list string);
  grant_types : option (list string);
  response_types : option (list string);
  token_endpoint_auth_method : option string
}.
End Body.

(** The JSON object the handler answers with. *)
Module Reply.
Record t := {
  client_id : string;
  client_secret : string;
  client_name : option string;
  redirect_uris : list string;
  grant_types : list string;
  response_types : list string;
  token_endpoint_auth_method : string;
  client_id_issued_at : Z
}.
End Reply.

(** Process-wide state of the router: the [registeredClients] map, and
    how many values have been drawn from [randomUUID] so far. *)
Record State := {
  registeredClients : gmap string RegisteredClient;
  draws : nat
}.

Definition initialState : State :=
  {| registeredClients := ∅; draws := 0 |}.

(** [xs || dflt] for an optional array: every array is truthy. *)
Definition orElse {A} (o : option A) (dflt : A) : A := default dflt o.

(** [s || dflt] for an optional string: [undefined] and [''] are falsy. *)
Definition orElseStr (o : option string) (dflt : string) : string :=
  if truthy_opt o then default dflt o else dflt.

Section Register.
(** [randomUUID()] of [crypto]: the [i]-th value the process draws. *)
Variable randomUUID : nat -> string.

(** The handler of [POST /register]; [nowMs] is [Date.now()].  It
    returns the new state, the HTTP status and the JSON body. *)
Definition register (nowMs : Z) (body : Body.t) (st : State)
  : State * (Z * Reply.t) :=
  let clientId := randomUUID (draws st) in
  let clientSecret := randomUUID (S (draws st)) in
  let issuedAt := nowMs `div` 1000 in
  let registeredClient :=
    {| client_id := clientId;
       client_secret := Some clientSecret;
       client_name := Body.client_name body;
       redirect_uris := orElse (Body.redirect_uris body) [];
       client_id_issued_at := issuedAt |} in
  ({| registeredClients := <[clientId := registeredClient]> (registeredClients st);
      draws := S (S (draws st)) |},
   (201,
    {| Reply.client_id := clientId;
       Reply.client_secret := clientSecret;
       Reply.client_name := Body.client_name body;
       Reply.redirect_uris := orElse (Body.redirect_uris body) [];
       Reply.grant_types :=
         orElse (Body.grant_types body) ["authorization_code"; "refresh_token"];
       Reply.response_types := orElse (Body.response_types body) ["code"];
       Reply.token_endpoint_auth_method :=
         orElseStr (Body.token_endpoint_auth_method body) "client_secret_post";
       Reply.client_id_issued_at := issuedAt |})).

(** [getRegisteredClient(clientId)]. *)
Definition getRegisteredClient (clientId : string) (st : State)
  : option RegisteredClient :=
  registeredClients st !! clientId.
End Register.

(** *** Authorization endpoint *)

(** A value of [req.query] as the query parser leaves it: a string, an
    array or a nested object. *)
#[warnings="-register-all"] Inductive QueryValue :=
| QString (s : string)
| QArray (items : list QueryValue)
| QObject (fields : list (string * QueryValue)).

(** A parsed [URL]: everything but the query, and the query. *)
Record URL := {
  location : string;
  searchParams : URLSearchParams.t
}.

Definition allowedParams : list string :=
  ["response_type"; "redirect_uri"; "scope"; "state"; "code_challenge";
   "code_challenge_method"; "login_hint"; "domain_hint"].

(** One pass of the loop over [allowedParams]:
    [if (value && typeof value === 'string') searchParams.set(param, value)]. *)
Definition forwardParam (query : gmap string QueryValue)
    (ps : URLSearchParams.t) (param : string) : URLSearchParams.t :=
  match query !! param with
  | Some (QString value) =>
      if truthy value then URLSearchParams.set param value ps else ps
  | _ => ps
  end.

Section Authorize.
(** [new URL(s)], the platform's URL parser. *)
Variable newURL : string -> URL.
(** [getRequiredScopes()] of [tools/index.ts]. *)
Variable requiredScopes : list string.

(** The handler of [GET /authorize]: the URL handed to [res.redirect]. *)
Definition authorize (config : Config) (query : gmap string QueryValue) : URL :=
  let microsoftAuthUrl :=
    newURL (authorizationEndpoint (getAuthEndpoints (tenantId config))) in
  let ps := foldl (forwardParam query) (searchParams microsoftAuthUrl) allowedParams in
  let ps := URLSearchParams.set "client_id" (clientId config) ps in
  let ps :=
    if negb (truthy_opt (URLSearchParams.get "scope" ps))
    then URLSearchParams.set "scope" (join " " requiredScopes) ps
    else ps in
  {| location := location microsoftAuthUrl; searchParams := ps |}.
End Authorize.

(** *** Token endpoint *)

(** What [await fetch(..)] followed by [await response.json()] yields. *)
Inductive FetchResult :=
| Answered (ok : bool) (status : Z) (data : string)  (* a response with a JSON body *)
| Failed (message : string).                         (* fetch or json() threw *)

(** What the token handler does, in program order. *)
Inductive Effect :=
| Fetch (url : string) (params : URLSearchParams.t)   (* POST to upstream *)
| SendError (status : Z) (error error_description : string)
| SendData (status : Z) (data : string).

Definition isFetch (e : Effect) : bool :=
  match e with Fetch _ _ => true | _ => false end.

(** [if (x) params.set(name, x)] for an optional body field. *)
Definition setIfTruthy (name : string) (o : option string)
    (ps : URLSearchParams.t) : URLSearchParams.t :=
  match o with
  | Some v => if truthy v then URLSearchParams.set name v ps else ps
  | None => ps
  end.

Section Token.
(** The upstream token endpoint, as seen through [fetch]. *)
Variable fetch : string -> URLSearchParams.t -> FetchResult.

(** The [try] block: call upstream and relay its answer. *)
Definition forward (tokenEndpoint : string) (params : URLSearchParams.t)
  : list Effect :=
  Fetch tokenEndpoint params ::
  match fetch tokenEndpoint params with
  | Answered ok status data =>
      if negb ok then [SendData status data] else [SendData 200 data]
  | Failed _ => [SendError 500 "server_error" "Token exchange failed"]
  end.

(** The handler of [POST /token]. *)
Definition token (config : Config) (body : gmap string string) : list Effect :=
  let tokenEndpoint := tokenEndpoint (getAuthEndpoints (tenantId config)) in
  if negb (truthy_opt (body !! "grant_type")) then
    [SendError 400 "invalid_request" "grant_type parameter is required"]
  else
    let grant_type := default EmptyString (body !! "grant_type") in
    let params := URLSearchParams.set "client_id" (clientId config) [] in
    let params := URLSearchParams.set "grant_type" grant_type params in
    let params := setIfTruthy "client_secret" (clientSecret config) params in
    if decide (grant_type = "authorization_code") then
      if negb (truthy_opt (body !! "code")) || negb (truthy_opt (body !! "redirect_uri")) then
        [SendError 400 "invalid_request"
           "code and redirect_uri are required for authorization_code grant"]
      else
        let params := URLSearchParams.set "code" (default EmptyString (body !! "code")) params in
        let params :=
          URLSearchParams.set "redirect_uri"
            (default EmptyString (body !! "redirect_uri")) params in
        let params := setIfTruthy "code_verifier" (body !! "code_verifier") params in
        forward tokenEndpoint params
    else if decide (grant_type = "refresh_token") then
      if negb (truthy_opt (body !! "refresh_token")) then
        [SendError 400 "invalid_request"
           "refresh_token is required for refresh_token grant"]
      else
        let params :=
          URLSearchParams.set "refresh_token"
            (default EmptyString (body !! "refresh_token")) params in
        forward tokenEndpoint params
    else
      [SendError 400 "unsupported_grant_type"
         ("Grant type '" +:+ grant_type +:+ "' is not supported")].
End Token.

End Metadata.

(** ** Claim extractor and tenant gate ([auth/token-validator.ts]) *)
Module TokenValidator.
Import Js Middleware.

(** Modelled from the spec: the failure kinds of the claim extractor and of
    the tenant gate ([auth/token-validator.ts] is not among the sources). *)
Inductive TokenError :=
| InvalidToken
| ExpiredToken
| TenantNotAllowed.

(** Modelled from the spec: the error code that goes with each failure
    kind, as listed for the error body ([auth/token-validator.ts] is not
    among the sources). *)
Definition code (e : TokenError) : string :=
  match e with
  | InvalidToken => "invalid_token"
  | ExpiredToken => "expired_token"
  | TenantNotAllowed => "tenant_not_allowed"
  end.

(** Modelled from the spec: a value of the decoded JSON payload, as far as
    the extractor tells values apart ([auth/token-validator.ts] is not
    among the sources). *)
Inductive JsonValue :=
| JString (s : string)
| JNumber (n : Z)
| JOther.

(** Modelled from the spec: the dot-separated segments of a bearer token
    ([auth/token-validator.ts] is not among the sources). *)
Fixpoint segments (s : string) : list string :=
  match s with
  | EmptyString => [EmptyString]
  | String c s' =>
      if Ascii.eqb c "."%char then EmptyString :: segments s'
      else
        match segments s' with
        | [] => [String c EmptyString]
        | x :: xs => String c x :: xs
        end
  end.

Section Parse.
(** Modelled from the spec: the decoding of the payload segment, base64url
    then JSON, is a parameter; it yields [None] when the segment is not
    valid base64url or its content is not a JSON object. *)
Variable decodePayload : string -> option (gmap string JsonValue).

(** Modelled from the spec: [parse(token)] of the claim extractor
    ([auth/token-validator.ts] is not among the sources).  The claims
    [exp], [oid], [tid] and [upn] carry expiresAt, subjectId, tenantId and
    the principal name; [now] is the current time in epoch seconds.
    Structure is validated first, expiry last. *)
Definition parse (now : Z) (token : string) : TokenError + ParsedToken :=
  match segments token with
  | [_; payload; _] =>
      match decodePayload payload with
      | None => inl InvalidToken
      | Some claims =>
          match claims !! "exp", claims !! "oid", claims !! "tid" with
          | Some (JNumber e), Some (JString o), Some (JString t) =>
              if e <? now then inl ExpiredToken
              else inr {| oid := o; tid := t;
                          upn := match claims !! "upn" with
                                 | Some (JString u) => Some u
                                 | _ => None
                                 end;
                          exp := e |}
          | _, _, _ => inl InvalidToken
          end
      end
  | _ => inl InvalidToken
  end.
End Parse.

(** Modelled from the spec: the displayIdentifier resolution order, a
    non-empty principal name, else the subject identifier
    ([auth/token-validator.ts] is not among the sources). *)
Definition getUserIdentifier (p : ParsedToken) : string :=
  match upn p with
  | Some u => if truthy u then u else oid p
  | None => oid p
  end.

(** Modelled from the spec: [check(tenantId, allowlist)] of the tenant
    gate ([auth/token-validator.ts] is not among the sources): [None] is
    acceptance. *)
Definition check (tenantId : string) (allowlist : gset string) : option TokenError :=
  if decide (allowlist = ∅) then None
  else if decide (tenantId ∈ allowlist) then None
  else Some TenantNotAllowed.

End TokenValidator.

(** ** Rate limiter ([middleware/rate-limiter.ts]) *)
Module RateLimiter.

(** Modelled from the spec: the per-identity window record
    ([middleware/rate-limiter.ts] is not among the sources). *)
Record RateLimitWindow := {
  windowStartMs : Z;
  requestCount : Z
}.

(** Modelled from the spec: the decision [admit] returns, with the
    [retryAfterSeconds] a denied caller receives
    ([middleware/rate-limiter.ts] is not among the sources). *)
Record Decision := {
  allowed : bool;
  remaining : Z;
  resetAtMs : Z;
  retryAfterSeconds : option Z
}.

(** Modelled from the spec: the [ceil] of a quotient of integers with a
    positive divisor, for [retryAfterSeconds]
    ([middleware/rate-limiter.ts] is not among the sources). *)
Definition ceilDiv (a b : Z) : Z := - ((- a) `div` b).

(** Modelled from the spec: the window in force for a call at time [now]
    ([middleware/rate-limiter.ts] is not among the sources): a fresh one
    when there is none or the existing one is older than [windowMs],
    otherwise the existing one with its count incremented. *)
Definition touch (windowMs now : Z) (prev : option RateLimitWindow) : RateLimitWindow :=
  match prev with
  | Some w =>
      if now - windowStartMs w >? windowMs
      then {| windowStartMs := now; requestCount := 1 |}
      else {| windowStartMs := windowStartMs w; requestCount := requestCount w + 1 |}
  | None => {| windowStartMs := now; requestCount := 1 |}
  end.

(** Modelled from the spec: [admit(k)] ([middleware/rate-limiter.ts] is not
    among the sources), here [admitIdentity], on the identity-to-window
    map; [now] is the clock reading in milliseconds.  Every call is
    counted, allowed or not. *)
Definition admitIdentity (limit windowMs now : Z) (k : string)
    (store : gmap string RateLimitWindow)
  : gmap string RateLimitWindow * Decision :=
  let w := touch windowMs now (store !! k) in
  let ok := requestCount w <=? limit in
  let resetAt := windowStartMs w + windowMs in
  (<[k := w]> store,
   {| allowed := ok;
      remaining := Z.max 0 (limit - requestCount w);
      resetAtMs := resetAt;
      retryAfterSeconds := if ok then None else Some (ceilDiv (resetAt - now) 1000) |}).

(** Modelled from the spec: a run of [admit] calls for one identity at the
    given clock readings, and the decisions it yields in order
    ([middleware/rate-limiter.ts] is not among the sources). *)
Fixpoint admitSequence (limit windowMs : Z) (k : string) (times : list Z)
    (store : gmap string RateLimitWindow) : list Decision :=
  match times with
  | [] => []
  | now :: rest =>
      let '(store', d) := admitIdentity limit windowMs now k store in
      d :: admitSequence limit windowMs k rest store'
  end.

End RateLimiter.

(** ** [auth/middleware.ts]: the optional variant *)
Module OptionalAuth.
Import Js Middleware.

Section WithTokenValidator.
Variable parseToken : string -> Outcome ParsedToken.
Variable getUserIdentifier : ParsedToken -> Outcome string.

(** [authHeader?.startsWith('Bearer ')], as a condition: [undefined] when
    there is no header, which is falsy. *)
Definition startsWithBearer (authHeader : option string) : bool :=
  match authHeader with
  | None => false
  | Some h => startsWith "Bearer " h
  end.

(** [optionalAuthMiddleware(req, _res, next)]: the request after the run
    and what the run did.  The [catch] block is empty. *)
Definition optionalAuthMiddleware (req : AuthenticatedRequest)
  : AuthenticatedRequest * list Effect :=
  let authHeader := authorization req in
  if negb (startsWithBearer authHeader) then (req, [CallNext])
  else
    let h := default EmptyString authHeader in
    let token := trim (substring 7 h) in
    if negb (truthy token) then (req, [CallNext])
    else
      match parseToken token with
      | Throws _ => (req, [CallParseToken token; CallNext])
      | Returns parsed =>
          match getUserIdentifier parsed with
          | Throws _ =>
              (req, [CallParseToken token; CallGetUserIdentifier parsed; CallNext])
          | Returns uid =>
              let req1 :=
                set_auth {| token := token; userId := uid;
                            tenantId := tid parsed;
                            parsedToken := parsed |} req in
              let req2 := set_rateLimitUserId (oid parsed) req1 in
              (req2, [CallParseToken token; CallGetUserIdentifier parsed;
                      CallNext])
          end
      end.
End WithTokenValidator.

End OptionalAuth.

(** ** [server.ts]: the handler at the end of the [/mcp] route *)
Module Server.
Import Js Middleware.

(** [handleMcpRequest]: the guard [if (!req.auth?.token)] answers 401;
    past it the request is served by the MCP transport, an argument
    here. *)
Definition handleMcpRequest (serve : Handler) : Handler :=
  fun req =>
    if negb (truthy_opt (token <$> auth req)) then
      (req, [SendJson 401 "invalid_token" "No valid access token provided"])
    else serve req.

End Server.

(** ** [tools/index.ts]: tool filtering and required scopes *)
Module Tools.
Import Js.

(** The fields of [ToolDefinition] the registry functions read. *)
Record ToolDefinition := {
  name : string;
  readOnly : bool;
  requiredScopes : list string
}.

(** The two fields of [Config] that [getFilteredTools] reads. *)
Record ToolSettings := {
  enabledTools : list string;
  readOnlyMode : bool
}.

(** [set.add(x)] on a [Set], kept in insertion order. *)
Definition setAdd (x : string) (s : list string) : list string :=
  if decide (x ∈ s) then s else s ++ [x].

(** [new Set(xs)]. *)
Definition newSet (xs : list string) : list string :=
  foldl (fun s x => setAdd x s) [] xs.

Definition BASE_SCOPES : list string := ["User.Read"; "offline_access"].

Section Registry.
(** [allTools], the concatenation of the mail and calendar tools. *)
Variable allTools : list ToolDefinition.

(** [getTool(name)]: [allTools.find(t => t.name === name)]. *)
Definition getTool (n : string) : option ToolDefinition :=
  List.find (fun t => bool_decide (name t = n)) allTools.

(** [getToolNames()]. *)
Definition getToolNames : list string := name <$> allTools.

(** [getFilteredTools()]: the allowlist first, when it is not empty, then
    read-only mode. *)
Definition getFilteredTools (config : ToolSettings) : list ToolDefinition :=
  let tools := allTools in
  let tools :=
    if (0 <? length (enabledTools config))%nat
    then filter (fun t => name t ∈ enabledTools config) tools
    else tools in
  let tools :=
    if readOnlyMode config
    then filter (fun t => readOnly t = true) tools
    else tools in
  tools.

(** [getRequiredScopes()]: the base scopes, then the scopes of the
    filtered tools in order, each once. *)
Definition getRequiredScopes (config : ToolSettings) : list string :=
  foldl (fun scopeSet tool =>
           foldl (fun scopeSet scope => setAdd scope scopeSet)
                 scopeSet (requiredScopes tool))
        (newSet BASE_SCOPES) (getFilteredTools config).
End Registry.

End Tools.

(** ** [auth/metadata.ts]: discovery documents *)
Module Discovery.
Import Js.

(** What [getBaseUrl] reads from the request. *)
Record Request := {
  secure : bool;                       (* req.secure *)
  x_forwarded_proto : option string;   (* req.headers['x-forwarded-proto'] *)
  x_forwarded_host : option string;    (* req.headers['x-forwarded-host'] *)
  host : option string                 (* req.headers.host *)
}.

(** [a || b || c] on optional strings with a final default. *)
Definition firstTruthy (a b : option string) (c : string) : string :=
  if truthy_opt a then default c a
  else if truthy_opt b then default c b
  else c.

(** [getBaseUrl(req)]. *)
Definition getBaseUrl (req : Request) : string :=
  let protocol :=
    if secure req || bool_decide (x_forwarded_proto req = Some "https")
    then "https" else "http" in
  let host := firstTruthy (x_forwarded_host req) (host req) "localhost" in
  protocol +:+ "://" +:+ host.

(** The document served at [/.well-known/oauth-protected-resource]. *)
Record ProtectedResource := {
  resource : string;
  authorization_servers : list string;
  pr_scopes_supported : list string;
  bearer_methods_supported : list string;
  resource_documentation : string
}.

(** The document served at [/.well-known/oauth-authorization-server]. *)
Record AuthorizationServer := {
  issuer : string;
  authorization_endpoint : string;
  token_endpoint : string;
  registration_endpoint : string;
  response_types_supported : list string;
  response_modes_supported : list string;
  grant_types_supported : list string;
  token_endpoint_auth_methods_supported : list string;
  code_challenge_methods_supported : list string;
  scopes_supported : list string
}.

Section Handlers.
(** [getRequiredScopes()]. *)
Variable scopes : list string.

Definition protectedResource (req : Request) : ProtectedResource :=
  let baseUrl := getBaseUrl req in
  {| resource := baseUrl +:+ "/mcp";
     authorization_servers := [baseUrl];
     pr_scopes_supported := scopes;
     bearer_methods_supported := ["header"];
     resource_documentation := baseUrl +:+ "/docs" |}.

Definition authorizationServer (req : Request) : AuthorizationServer :=
  let baseUrl := getBaseUrl req in
  {| issuer := baseUrl;
     authorization_endpoint := baseUrl +:+ "/authorize";
     token_endpoint := baseUrl +:+ "/token";
     registration_endpoint := baseUrl +:+ "/register";
     response_types_supported := ["code"];
     response_modes_supported := ["query"];
     grant_types_supported := ["authorization_code"; "refresh_token"];
     token_endpoint_auth_methods_supported := ["none"; "client_secret_post"];
     code_challenge_methods_supported := ["S256"];
     scopes_supported := scopes |}.
End Handlers.

End Discovery.

(** ** [auth/metadata.ts]: runs of registrations *)
Module Registry.
Import Metadata.

Section Runs.
Variable randomUUID : nat -> string.

(** A sequence of [POST /register] requests, each with its clock reading,
    handled one after the other: the final state and the replies. *)
Fixpoint registerAll (reqs : list (Z * Body.t)) (st : State)
  : State * list Reply.t :=
  match reqs with
  | [] => (st, [])
  | (nowMs, body) :: rest =>
      let '(st1, (_, reply)) := register randomUUID nowMs body st in
      let '(st2, replies) := registerAll rest st1 in
      (st2, reply :: replies)
  end.
End Runs.

(** The record [register] stores for a reply to a given body. *)
Definition stored (body : Body.t) (reply : Reply.t) : RegisteredClient :=
  {| client_id := Reply.client_id reply;
     client_secret := Some (Reply.client_secret reply);
     client_name := Body.client_name body;
     redirect_uris := Reply.redirect_uris reply;
     client_id_issued_at := Reply.client_id_issued_at reply |}.

End Registry.

(** ** [auth/metadata.ts]: what the authorize loop leaves behind *)
Module Redirect.
Import Metadata.

(** The pair the loop adds for one allowlisted name: the value the query
    gives under it, when that is a non-empty string. *)
Definition forwardedPair (query : gmap string QueryValue) (k : string)
  : URLSearchParams.t :=
  match query !! k with
  | Some (QString v) => if Js.truthy v then [(k, v)] else []
  | _ => []
  end.

Definition forwardedPairs (query : gmap string QueryValue) (names : list string)
  : URLSearchParams.t :=
  flat_map (forwardedPair query) names.

End Redirect.

(** ** [config.ts]: loading the configuration *)
Module Environment.
Import Js.

(** [s.split(sep)] for a one-character separator. *)
Fixpoint split (sep : ascii) (s : string) : list string :=
  match s with
  | EmptyString => [EmptyString]
  | String c s' =>
      if Ascii.eqb c sep then EmptyString :: split sep s'
      else
        match split sep s' with
        | [] => [String c EmptyString]
        | x :: xs => String c x :: xs
        end
  end.

(** [x || undefined] for an optional string. *)
Definition orUndefined (o : option string) : option string :=
  if truthy_opt o then o else None.

(** [(value || '').split(',').map(t => t.trim()).filter(t => t.length > 0)],
    the parsing of the comma-separated settings. *)
Definition parseList (value : option string) : list string :=
  filter (fun t => (0 < String.length t)%nat)
         (trim <$> split ","%char (Metadata.orElseStr value EmptyString)).

(** The string is made of commas and white space only. *)
Fixpoint onlyCommasAndBlanks (s : string) : bool :=
  match s with
  | EmptyString => true
  | String c s' =>
      (Ascii.eqb c ","%char || isWhiteSpace c) && onlyCommasAndBlanks s'
  end.

(** [Config], in full. Numbers are [None] when [parseInt] gives [NaN]. *)
Record Settings := {
  clientId : string;
  clientSecret : option string;
  tenantId : string;
  port : option Z;
  host : string;
  logLevel : string;
  corsOrigin : string;
  rateLimitRequests : option Z;
  rateLimitWindowMs : option Z;
  allowedTenants : list string;
  readOnlyMode : bool;
  enabledTools : list string
}.

Section GetConfig.
(** [parseInt(s, 10)]. *)
Variable parseInt10 : string -> option Z.

(** [getConfig()]: [env] is [process.env], [cachedConfig] the module-level
    cache; the result and the cache afterwards. *)
Definition getConfig (env : gmap string string) (cachedConfig : option Settings)
  : Outcome Settings * option Settings :=
  match cachedConfig with
  | Some config => (Returns config, cachedConfig)
  | None =>
      let clientId := env !! "MS365_MCP_CLIENT_ID" in
      if negb (truthy_opt clientId) then
        (Throws (OtherError "MS365_MCP_CLIENT_ID environment variable is required"),
         None)
      else
        let allowedTenants := parseList (env !! "MS365_MCP_ALLOWED_TENANTS") in
        let enabledTools := parseList (env !! "MS365_MCP_ENABLED_TOOLS") in
        let config :=
          {| clientId := default EmptyString clientId;
             clientSecret := orUndefined (env !! "MS365_MCP_CLIENT_SECRET");
             tenantId := Metadata.orElseStr (env !! "MS365_MCP_TENANT_ID") "common";
             port := parseInt10 (Metadata.orElseStr (env !! "MS365_MCP_PORT") "3000");
             host := Metadata.orElseStr (env !! "MS365_MCP_HOST") "0.0.0.0";
             logLevel := Metadata.orElseStr (env !! "MS365_MCP_LOG_LEVEL") "info";
             corsOrigin := Metadata.orElseStr (env !! "MS365_MCP_CORS_ORIGIN") "*";
             rateLimitRequests :=
               parseInt10 (Metadata.orElseStr (env !! "MS365_MCP_RATE_LIMIT_REQUESTS") "30");
             rateLimitWindowMs :=
               parseInt10 (Metadata.orElseStr (env !! "MS365_MCP_RATE_LIMIT_WINDOW_MS") "60000");
             allowedTenants := allowedTenants;
             readOnlyMode :=
               bool_decide (env !! "MS365_MCP_READ_ONLY_MODE" = Some "true");
             enabledTools := enabledTools |} in
        (Returns config, Some config)
  end.
End GetConfig.

(** The part of the settings [getFilteredTools] reads. *)
Definition toolSettings (config : Settings) : Tools.ToolSettings :=
  {| Tools.enabledTools := enabledTools config;
     Tools.readOnlyMode := readOnlyMode config |}.

End Environment.

(** ** Sample inputs *)
Module Samples.
Import Js Middleware Config.

(** A request on a protected route with the given [Authorization] header
    and nothing attached yet. *)
Definition request (authHeader : option string) : AuthenticatedRequest :=
  {| authorization := authHeader; path := "/mcp";
     auth := None; rateLimitUserId := None |}.

(** "Bearer " followed by a space and a no-break space (code unit 160). *)
Definition blankBearer : string :=
  "Bearer " +:+ String " "%char (String (ascii_of_nat 160) EmptyString).

Definition alice : ParsedToken :=
  {| oid := "00000000-aaaa"; tid := "contoso-tid";
     upn := Some "alice@contoso.com"; exp := 2000000000 |}.

(** Token validators with a fixed behaviour. *)
Definition accepting (_ : string) : Outcome ParsedToken := Returns alice.
Definition rejecting (code message : string) (_ : string) : Outcome ParsedToken :=
  Throws (TokenValidationError code message).
Definition identify (p : ParsedToken) : Outcome string :=
  Returns (TokenValidator.getUserIdentifier p).

(** Handlers standing for the rest of the route. *)
Definition passThrough : Handler := fun req => (req, [CallNext]).
Definition silent : Handler := fun req => (req, []).

Definition gateway : Config :=
  {| clientId := "gateway-app-id"; clientSecret := Some "gateway-secret";
     tenantId := "common"; rateLimitRequests := 30;
     rateLimitWindowMs := 60000; allowedTenants := [] |}.

(** An upstream that answers every token request with the same body. *)
Definition upstream (_ : string) (_ : URLSearchParams.t) : Metadata.FetchResult :=
  Metadata.Answered true 200 "{}".

(** A URL parser for endpoints without a query component. *)
Definition plainURL (s : string) : Metadata.URL :=
  {| Metadata.location := s; Metadata.searchParams := [] |}.

(** Queries of [GET /authorize] that try to bring their own [client_id]. *)
Definition confusedQuery : gmap string Metadata.QueryValue :=
  {[ "response_type" := Metadata.QString "code";
     "redirect_uri" := Metadata.QString "X";
     "client_id" := Metadata.QString "evil123" ]}.

Definition noisyQuery : gmap string Metadata.QueryValue :=
  {[ "response_type" := Metadata.QString "code";
     "redirect_uri" := Metadata.QString "X";
     "client_id" := Metadata.QString "another-app";
     "prompt" := Metadata.QString "consent";
     "resource" := Metadata.QArray [Metadata.QString "a"; Metadata.QString "b"] ]}.

(** Bodies of [POST /token]. *)
Definition codeGrant : gmap string string :=
  {[ "grant_type" := "authorization_code";
     "code" := "abc";
     "redirect_uri" := "http://localhost/cb" ]}.

Definition codeGrantWithCredentials : gmap string string :=
  <["client_id" := "evil123"]> (<["client_secret" := "guess"]> codeGrant).

Definition passwordGrant : gmap string string :=
  {[ "grant_type" := "password"; "username" := "u"; "password" := "p" ]}.

Definition refreshGrant : gmap string string :=
  {[ "grant_type" := "refresh_token"; "refresh_token" := "r1" ]}.

(** A registration request that names the client and nothing else. *)
Definition bareBody : Metadata.Body.t :=
  {| Metadata.Body.client_name := Some "inspector";
     Metadata.Body.redirect_uris := None;
     Metadata.Body.grant_types := None;
     Metadata.Body.response_types := None;
     Metadata.Body.token_endpoint_auth_method := None |}.

(** A claim set with the given expiry, and a payload decoder that yields it
    for every segment. *)
Definition claimsAt (e : Z) : gmap string TokenValidator.JsonValue :=
  {[ "exp" := TokenValidator.JNumber e;
     "oid" := TokenValidator.JString "00000000-aaaa";
     "tid" := TokenValidator.JString "contoso-tid";
     "upn" := TokenValidator.JString "alice@contoso.com" ]}.

Definition claimsExpiringAt (e : Z) (_ : string)
  : option (gmap string TokenValidator.JsonValue) :=
  Some (claimsAt e).

(** A source of version-4 style identifiers: 24 fixed characters followed
    by the draw number in twelve hexadecimal digits. *)
Definition hexDigit (n : N) : ascii :=
  ascii_of_N (if (n <? 10)%N then 48 + n else 87 + n)%N.

Fixpoint hexDigits (len : nat) (n : N) (acc : string) : string :=
  match len with
  | O => acc
  | S len' => hexDigits len' (n / 16)%N (String (hexDigit (n mod 16)%N) acc)
  end.

Definition sampleUUID (i : nat) : string :=
  "3f2a6c1e-7b5d-4e8a-9c0f-" +:+ hexDigits 12 (N.of_nat i) EmptyString.

End Samples.

(** ** The [Authorization] header, as HTTP reads it *)
Module AuthScheme.
Import Js.

(** The lower-case form of an ASCII letter. *)
Definition toLowerAscii (c : ascii) : ascii :=
  let n := N_of_ascii c in
  if ((65 <=? n) && (n <=? 90))%N then ascii_of_N (n + 32) else c.

Fixpoint toLowerCase (s : string) : string :=
  match s with
  | EmptyString => EmptyString
  | String c s' => String (toLowerAscii c) (toLowerCase s')
  end.

(** The auth-scheme of a credentials value: what precedes the first
    space. *)
Fixpoint authScheme (h : string) : string :=
  match h with
  | EmptyString => EmptyString
  | String c h' => if Ascii.eqb c " "%char then EmptyString else String c (authScheme h')
  end.

(** The header names the Bearer scheme; scheme names do not depend on
    letter case. *)
Definition usesBearerScheme (h : string) : bool :=
  bool_decide (toLowerCase (authScheme h) = "bearer").

(** What follows the scheme, trimmed: the token of a Bearer header. *)
Definition authToken (h : string) : string :=
  trim (substring (String.length (authScheme h)) h).

End AuthScheme.

(** ** [auth/metadata.ts]: the token endpoint on the bodies the parsers
    produce

    [req.body as Record<string, string>] checks nothing: behind
    [express.json()] and [express.urlencoded({ extended: true })] a field
    of the body is any JSON value.  This module is the handler of
    [POST /token] on such bodies, and with the upstream answer as the JSON
    value [response.json()] yields. *)
Module TokenEndpoint.
Import Js Config.

(** A number, as far as the handler can tell numbers apart: whether it
    is zero (falsy), and how it reads as a string. *)
Record JsNumber := {
  isZero : bool;
  decimal : string
}.

(** A JSON value. *)
#[warnings="-register-all"] Inductive JsValue :=
| JNull
| JBool (b : bool)
| JNum (n : JsNumber)
| JStr (s : string)
| JArr (items : list JsValue)
| JObj (fields : list (string * JsValue)).

(** Truthiness, as [if (x)] and [!x] test it. *)
Definition truthy (v : JsValue) : bool :=
  match v with
  | JNull => false
  | JBool b => b
  | JNum n => negb (isZero n)
  | JStr s => Js.truthy s
  | JArr _ | JObj _ => true
  end.

(** Truthiness of a property that may be absent. *)
Definition truthy_opt (o : option JsValue) : bool :=
  match o with
  | None => false
  | Some v => truthy v
  end.

(** [x === s] for a string literal [s]. *)
Definition isString (s : string) (v : JsValue) : bool :=
  match v with
  | JStr t => bool_decide (t = s)
  | _ => false
  end.

(** The object has an own property of that name. *)
Definition hasKey (k : string) (fields : list (string * JsValue)) : bool :=
  existsb (fun p => bool_decide (p.1 = k)) fields.

(** The conversion to a string that [URLSearchParams.set] and template
    literals apply; [None] when it throws a [TypeError].  An array is its
    elements joined by commas, [null] elements reading as the empty
    string; a plain object reads [[object Object]], unless an own
    [toString] property, which is never a function in parsed JSON, hides
    the inherited method. *)
Fixpoint toString (v : JsValue) : option string :=
  match v with
  | JNull => Some "null"
  | JBool true => Some "true"
  | JBool false => Some "false"
  | JNum n => Some (decimal n)
  | JStr s => Some s
  | JArr items =>
      (fix joinItems (xs : list JsValue) : option string :=
         match xs with
         | [] => Some EmptyString
         | x :: rest =>
             let element :=
               match x with
               | JNull => Some EmptyString
               | _ => toString x
               end in
             match rest with
             | [] => element
             | _ :: _ =>
                 match element, joinItems rest with
                 | Some a, Some b => Some (a +:+ "," +:+ b)
                 | _, _ => None
                 end
             end
         end) items
  | JObj fields =>
      if hasKey "toString" fields then None else Some "[object Object]"
  end.

(** What [await fetch(..)] followed by [await response.json()] yields. *)
Inductive Upstream :=
| Responded (ok : bool) (status : Z) (data : JsValue)
| Threw (message : string).          (* fetch or json() threw *)

(** What the handler does, in program order. *)
Inductive Effect :=
| Fetch (url : string) (params : URLSearchParams.t)   (* POST to upstream *)
| SendError (status : Z) (error error_description : string)
| SendBody (status : Z) (data : JsValue)
| Rejects.   (* a [TypeError] leaves the handler before it has answered *)

Definition isFetch (e : Effect) : bool :=
  match e with Fetch _ _ => true | _ => false end.

(** [params.set(name, value)], which converts [value] first. *)
Definition setParam (name : string) (value : JsValue) (ps : URLSearchParams.t)
  : option URLSearchParams.t :=
  match toString value with
  | Some s => Some (URLSearchParams.set name s ps)
  | None => None
  end.

(** [params.set(name, body.x)] for a body field; a property that is
    absent reads [undefined]. *)
Definition setField (name : string) (o : option JsValue)
    (ps : URLSearchParams.t) : option URLSearchParams.t :=
  match o with
  | Some v => setParam name v ps
  | None => Some (URLSearchParams.set name "undefined" ps)
  end.

(** [if (body.x) params.set(name, body.x)] for a body field. *)
Definition setParamIfTruthy (name : string) (o : option JsValue)
    (ps : URLSearchParams.t) : option URLSearchParams.t :=
  match o with
  | Some v => if truthy v then setParam name v ps else Some ps
  | None => Some ps
  end.

(** The field, where the handler converts it, converts without a throw. *)
Definition converts (o : option JsValue) : bool :=
  match o with
  | Some v => if truthy v then bool_decide (is_Some (toString v)) else true
  | None => true
  end.

Definition serverError : Effect :=
  SendError 500 "server_error" "Token exchange failed".

Section Token.
Variable fetch : string -> URLSearchParams.t -> Upstream.

(** The [try] block.  In the branch for a response that is not ok,
    [data.error] is read for the log: on [null] that read throws, and the
    [catch] answers. *)
Definition forward (tokenEndpoint : string) (params : URLSearchParams.t)
  : list Effect :=
  Fetch tokenEndpoint params ::
  match fetch tokenEndpoint params with
  | Responded ok status data =>
      if negb ok then
        match data with
        | JNull => [serverError]
        | _ => [SendBody status data]
        end
      else [SendBody 200 data]
  | Threw _ => [serverError]
  end.

(** Run [k] on the parameters, or leave with the [TypeError]. *)
Definition orReject (o : option URLSearchParams.t)
    (k : URLSearchParams.t -> list Effect) : list Effect :=
  match o with
  | Some ps => k ps
  | None => [Rejects]
  end.

(** The handler of [POST /token].  The description of the last branch
    converts [grant_type] again, to the string [params.set] already
    obtained. *)
Definition token (config : Config) (body : gmap string JsValue) : list Effect :=
  let tokenEndpoint := tokenEndpoint (getAuthEndpoints (tenantId config)) in
  match body !! "grant_type" with
  | None =>
      [SendError 400 "invalid_request" "grant_type parameter is required"]
  | Some grant_type =>
      if negb (truthy grant_type) then
        [SendError 400 "invalid_request" "grant_type parameter is required"]
      else
        let params := URLSearchParams.set "client_id" (clientId config) [] in
        orReject (setParam "grant_type" grant_type params) (fun params =>
        let params :=
          Metadata.setIfTruthy "client_secret" (clientSecret config) params in
        if isString "authorization_code" grant_type then
          if negb (truthy_opt (body !! "code"))
             || negb (truthy_opt (body !! "redirect_uri")) then
            [SendError 400 "invalid_request"
               "code and redirect_uri are required for authorization_code grant"]
          else
            orReject (setField "code" (body !! "code") params) (fun params =>
            orReject (setField "redirect_uri" (body !! "redirect_uri") params)
              (fun params =>
            orReject (setParamIfTruthy "code_verifier" (body !! "code_verifier") params)
              (fun params =>
            forward tokenEndpoint params)))
        else if isString "refresh_token" grant_type then
          if negb (truthy_opt (body !! "refresh_token")) then
            [SendError 400 "invalid_request"
               "refresh_token is required for refresh_token grant"]
          else
            orReject (setField "refresh_token" (body !! "refresh_token") params)
              (fun params =>
            forward tokenEndpoint params)
        else
          [SendError 400 "unsupported_grant_type"
             ("Grant type '" +:+ default EmptyString (toString grant_type)
              +:+ "' is not supported")])
  end.
End Token.

(** How the string-valued model of [Metadata] sits inside this one. *)
Definition embed (e : Metadata.Effect) : Effect :=
  match e with
  | Metadata.Fetch url params => Fetch url params
  | Metadata.SendError status error description => SendError status error description
  | Metadata.SendData status data => SendBody status (JStr data)
  end.

Definition liftFetch (fetch : string -> URLSearchParams.t -> Metadata.FetchResult)
  : string -> URLSearchParams.t -> Upstream :=
  fun url params =>
    match fetch url params with
    | Metadata.Answered ok status data => Responded ok status (JStr data)
    | Metadata.Failed message => Threw message
    end.

End TokenEndpoint.

(** ** More sample inputs *)
Module Fixtures.
Import Js Middleware Config.

(** Three tools: one that reads mail, one that sends it, one that reads
    the calendar. *)
Definition listMail : Tools.ToolDefinition :=
  {| Tools.name := "list-mail-messages"; Tools.readOnly := true;
     Tools.requiredScopes := ["Mail.Read"] |}.
Definition sendMail : Tools.ToolDefinition :=
  {| Tools.name := "send-mail"; Tools.readOnly := false;
     Tools.requiredScopes := ["Mail.Send"; "Mail.Read"] |}.
Definition listEvents : Tools.ToolDefinition :=
  {| Tools.name := "list-calendar-events"; Tools.readOnly := true;
     Tools.requiredScopes := ["Calendars.Read"] |}.

Definition someTools : list Tools.ToolDefinition := [listMail; sendMail; listEvents].

(** Read-only mode, with an allowlist that names the sending tool. *)
Definition readOnlyMail : Tools.ToolSettings :=
  {| Tools.enabledTools := ["send-mail"; "list-mail-messages"];
     Tools.readOnlyMode := true |}.

Definition everything : Tools.ToolSettings :=
  {| Tools.enabledTools := []; Tools.readOnlyMode := false |}.

(** Upstreams of the token endpoint: one that answers, one that cannot be
    reached, one that turns the grant down, one that fails with an empty
    JSON body. *)
Definition answering (_ : string) (_ : URLSearchParams.t) : TokenEndpoint.Upstream :=
  TokenEndpoint.Responded true 200
    (TokenEndpoint.JObj [("access_token", TokenEndpoint.JStr "at-1")]).
Definition unreachable (_ : string) (_ : URLSearchParams.t) : TokenEndpoint.Upstream :=
  TokenEndpoint.Threw "connect ECONNREFUSED 10.1.2.3:443".
Definition refusing (_ : string) (_ : URLSearchParams.t) : TokenEndpoint.Upstream :=
  TokenEndpoint.Responded false 400
    (TokenEndpoint.JObj [("error", TokenEndpoint.JStr "invalid_grant")]).
Definition failingWithNull (_ : string) (_ : URLSearchParams.t)
  : TokenEndpoint.Upstream :=
  TokenEndpoint.Responded false 502 TokenEndpoint.JNull.

(** Bodies of [POST /token] as the parsers hand them over. *)
Definition refreshBody : gmap string TokenEndpoint.JsValue :=
  {[ "grant_type" := TokenEndpoint.JStr "refresh_token";
     "refresh_token" := TokenEndpoint.JStr "r1" ]}.

Definition codeBody : gmap string TokenEndpoint.JsValue :=
  {[ "grant_type" := TokenEndpoint.JStr "authorization_code";
     "code" := TokenEndpoint.JStr "abc";
     "redirect_uri" := TokenEndpoint.JStr "http://localhost/cb" ]}.

Definition passwordBody : gmap string TokenEndpoint.JsValue :=
  {[ "grant_type" := TokenEndpoint.JStr "password";
     "username" := TokenEndpoint.JStr "u" ]}.

(** [refresh_token] given as an empty array: truthy, and the empty string
    once converted. *)
Definition arrayRefreshBody : gmap string TokenEndpoint.JsValue :=
  {[ "grant_type" := TokenEndpoint.JStr "refresh_token";
     "refresh_token" := TokenEndpoint.JArr [] ]}.

(** [grant_type] given as an object whose own [toString] is a number. *)
Definition hostileGrant : TokenEndpoint.JsValue :=
  TokenEndpoint.JObj
    [("toString",
      TokenEndpoint.JNum {| TokenEndpoint.isZero := false;
                            TokenEndpoint.decimal := "1" |})].

Definition hostileBody : gmap string TokenEndpoint.JsValue :=
  {[ "grant_type" := hostileGrant ]}.

(** A request behind a TLS-terminating proxy. *)
Definition proxied : Discovery.Request :=
  {| Discovery.secure := false;
     Discovery.x_forwarded_proto := Some "https";
     Discovery.x_forwarded_host := Some "mcp.example.com";
     Discovery.host := Some "10.0.0.5:3000" |}.

(** Three registrations in a row. *)
Definition threeRequests : list (Z * Metadata.Body.t) :=
  [(1700000000123, Samples.bareBody);
   (1700000001000, Samples.bareBody);
   (1700000002000, Samples.bareBody)].

(** An environment with the required variable and a tenant allowlist. *)
Definition someEnv : gmap string string :=
  {[ "MS365_MCP_CLIENT_ID" := "gateway-app-id";
     "MS365_MCP_CLIENT_SECRET" := EmptyString;
     "MS365_MCP_ALLOWED_TENANTS" := " contoso-tid , ,fabrikam-tid," ]}.

(** A stand-in for [parseInt(s, 10)] on the digit strings used here. *)
Definition parseDigits (s : string) : option Z :=
  if decide (s = "3000") then Some 3000
  else if decide (s = "30") then Some 30
  else if decide (s = "60000") then Some 60000
  else None.

End Fixtures.

(** * Properties *)

(** ** JavaScript strings *)
Section JsFacts.
Import Js.

Lemma truthy_false_iff s : truthy s = false <-> s = EmptyString.
Proof. destruct s; simpl; split; congruence. Qed.

Lemma truthy_true_iff s : truthy s = true <-> s <> EmptyString.
Proof. destruct s; simpl; split; congruence. Qed.

Lemma truthy_opt_false_iff o :
  truthy_opt o = false <-> o = None \/ o = Some EmptyString.
Proof.
  destruct o as [s|]; simpl.
  - rewrite truthy_false_iff. split; [intros ->; by right | intros [?|?]; congruence].
  - split; [by left | done].
Qed.

Lemma truthy_opt_true_iff o :
  truthy_opt o = true <-> exists s, o = Some s /\ s <> EmptyString.
Proof.
  destruct o as [[|c s]|]; simpl; split; try done.
  - intros (s & [= <-] & Hs). by destruct Hs.
  - intros _. by eexists.
  - intros (s & [=] & _).
Qed.

Lemma trimStart_empty_iff s :
  trimStart s = EmptyString <-> allWhiteSpace s = true.
Proof.
  induction s as [|c s IH]; simpl; [done|].
  destruct (isWhiteSpace c); simpl; [done | split; discriminate].
Qed.

Lemma trimEnd_empty_iff s :
  trimEnd s = EmptyString <-> allWhiteSpace s = true.
Proof.
  induction s as [|c s IH]; simpl; [done|].
  destruct (trimEnd s) as [|d r] eqn:E.
  - destruct (isWhiteSpace c); simpl; [tauto | split; discriminate].
  - split; [discriminate|].
    intros [_ H]%andb_true_iff. apply IH in H. discriminate.
Qed.

Lemma allWhiteSpace_trimStart s :
  allWhiteSpace (trimStart s) = allWhiteSpace s.
Proof.
  induction s as [|c s IH]; simpl; [done|].
  destruct (isWhiteSpace c) eqn:E; simpl; [done | by rewrite E].
Qed.

(** [trim] leaves nothing exactly when the string is all white space. *)
Lemma trim_empty_iff s : trim s = EmptyString <-> allWhiteSpace s = true.
Proof. unfold trim. by rewrite trimEnd_empty_iff, allWhiteSpace_trimStart. Qed.

End JsFacts.

(** ** Admission middleware *)
Section MiddlewareFacts.
Import Js Middleware.

Variable parseToken : string -> Outcome ParsedToken.
Variable getUserIdentifier : ParsedToken -> Outcome string.

Abbreviation run := (bearerAuthMiddleware parseToken getUserIdentifier).

(** The [catch] block answers with exactly one JSON error. *)
Lemma onCatch_sends e : exists st err d, onCatch e = SendJson st err d.
Proof. destruct e; simpl; eauto. Qed.

(** The three ways the header can be rejected before the token is looked at. *)
Lemma run_no_header req :
  truthy_opt (authorization req) = false ->
  run req = (req, [SendJson 401 "invalid_request" "Missing Authorization header"]).
Proof. intros H. unfold bearerAuthMiddleware. by rewrite H. Qed.

Lemma run_not_bearer req h :
  authorization req = Some h -> h <> EmptyString ->
  startsWith "Bearer " h = false ->
  run req = (req, [SendJson 401 "invalid_request"
                     "Authorization header must use Bearer scheme"]).
Proof.
  intros Hh Hne%truthy_true_iff Hp. unfold bearerAuthMiddleware.
  rewrite Hh. cbn [truthy_opt default from_option id].
  by rewrite Hne, Hp.
Qed.

Lemma run_bearer_empty req h :
  authorization req = Some h ->
  startsWith "Bearer " h = true ->
  trim (substring 7 h) = EmptyString ->
  run req = (req, [SendJson 401 "invalid_token" "Bearer token is empty"]).
Proof.
  intros Hh Hp Ht. unfold bearerAuthMiddleware.
  rewrite Hh. cbn [truthy_opt default from_option id].
  assert (truthy h = true) as -> by (by destruct h).
  by rewrite Hp, Ht.
Qed.

(** Once a non-empty token has been cut out of the header, the run is
    decided by the token validator. *)
Lemma run_bearer_token req h :
  authorization req = Some h ->
  startsWith "Bearer " h = true ->
  trim (substring 7 h) <> EmptyString ->
  run req =
    let token := trim (substring 7 h) in
    match parseToken token with
    | Throws e => (req, [CallParseToken token; onCatch e])
    | Returns parsed =>
        match getUserIdentifier parsed with
        | Throws e =>
            (req, [CallParseToken token; CallGetUserIdentifier parsed; onCatch e])
        | Returns uid =>
            (set_rateLimitUserId (oid parsed)
               (set_auth {| token := token; userId := uid;
                            tenantId := tid parsed; parsedToken := parsed |} req),
             [CallParseToken token; CallGetUserIdentifier parsed; CallNext])
        end
    end.
Proof.
  intros Hh Hp Ht%truthy_true_iff. unfold bearerAuthMiddleware.
  rewrite Hh. cbn [truthy_opt default from_option id].
  assert (truthy h = true) as -> by (by destruct h).
  by rewrite Hp, Ht.
Qed.

(** A handler that does not call [next()] ends the route. *)
Lemma runChain_stops (h : Handler) rest req req' es :
  h req = (req', es) -> existsb isCallNext es = false ->
  runChain (h :: rest) req = (req', es).
Proof. intros Hh Hn. simpl. by rewrite Hh, Hn. Qed.

Lemma runChain_continues (h : Handler) rest req req' es :
  h req = (req', es) -> existsb isCallNext es = true ->
  runChain (h :: rest) req =
    (let '(req2, es') := runChain rest req' in (req2, es ++ es')).
Proof. intros Hh Hn. simpl. by rewrite Hh, Hn. Qed.

End MiddlewareFacts.

(** ** The scheme of a header the middleware takes for a Bearer header *)
Section AuthSchemeFacts.
Import Js AuthScheme.

Lemma startsWith_app p : forall s,
  startsWith p s = true -> exists r, s = p +:+ r.
Proof.
  induction p as [|a p IH]; intros s; cbn [startsWith].
  - intros _. by exists s.
  - destruct s as [|b s]; [done|].
    destruct (Ascii.eqb_spec a b) as [->|]; [|done].
    intros [r ->]%IH. by exists r.
Qed.

(** A header that starts with "Bearer " names the Bearer scheme. *)
Lemma bearer_prefix_scheme h :
  startsWith "Bearer " h = true -> usesBearerScheme h = true.
Proof. intros [r ->]%startsWith_app. reflexivity. Qed.

End AuthSchemeFacts.

Section AdmissionClaims.
Import Js Middleware AuthScheme.

Variable parseToken : string -> Outcome ParsedToken.
Variable getUserIdentifier : ParsedToken -> Outcome string.
Variables rateLimit handleMcpRequest : Handler.

Abbreviation middleware := (bearerAuthMiddleware parseToken getUserIdentifier).
Abbreviation route :=
  (mcpRoute parseToken getUserIdentifier rateLimit handleMcpRequest).

(** A run that ends in a single JSON error ends the route with it. *)
Lemma route_of_rejection req st err d :
  middleware req = (req, [SendJson st err d]) ->
  route req = (req, [SendJson st err d]).
Proof. intros H. unfold mcpRoute. by apply runChain_stops. Qed.

(** C6 (as amended): malformed [Authorization] headers.  A missing or empty
    header is answered 401 [invalid_request] "Missing Authorization header";
    a non-empty header that does not name the Bearer scheme is answered
    401 [invalid_request] "Authorization header must use Bearer scheme"; a
    header that starts with "Bearer " and whose remainder trims to
    nothing is answered 401 [invalid_token].  In each case that answer is
    the only thing the middleware does: the token validator is not called,
    the request is left as it was, and the route ends there, so neither
    the rate limiter nor the MCP handler runs.  Nothing is said here of a
    header that names the Bearer scheme without starting with
    "Bearer ". *)
Theorem malformed_header_rejected req :
  ((authorization req = None \/ authorization req = Some EmptyString) ->
     let answer := [SendJson 401 "invalid_request" "Missing Authorization header"] in
     middleware req = (req, answer) /\ route req = (req, answer))
  /\
  (forall h, authorization req = Some h -> h <> EmptyString ->
     usesBearerScheme h = false ->
     let answer := [SendJson 401 "invalid_request"
                      "Authorization header must use Bearer scheme"] in
     middleware req = (req, answer) /\ route req = (req, answer))
  /\
  (forall h, authorization req = Some h -> startsWith "Bearer " h = true ->
     trim (substring 7 h) = EmptyString ->
     let answer := [SendJson 401 "invalid_token" "Bearer token is empty"] in
     middleware req = (req, answer) /\ route req = (req, answer)).
Proof.
  repeat split.
  - apply run_no_header. by apply truthy_opt_false_iff.
  - apply route_of_rejection, run_no_header. by apply truthy_opt_false_iff.
  - apply run_not_bearer with h; [done | done |].
    destruct (startsWith "Bearer " h) eqn:Hp; [|done].
    apply bearer_prefix_scheme in Hp. congruence.
  - apply route_of_rejection, run_not_bearer with h; [done | done |].
    destruct (startsWith "Bearer " h) eqn:Hp; [|done].
    apply bearer_prefix_scheme in Hp. congruence.
  - by apply run_bearer_empty with h.
  - by apply route_of_rejection, run_bearer_empty with h.
Qed.

(** C7: when [parseToken] raises a [TokenValidationError], the middleware
    answers with the raised code: status 401 for [invalid_token] and
    [expired_token], status 403 for [tenant_not_allowed]; the raised
    message is the description, and nothing else happens. *)
Theorem validation_error_status req h code message :
  authorization req = Some h ->
  startsWith "Bearer " h = true ->
  trim (substring 7 h) <> EmptyString ->
  parseToken (trim (substring 7 h)) = Throws (TokenValidationError code message) ->
  (code = "invalid_token" \/ code = "expired_token" ->
     middleware req =
       (req, [CallParseToken (trim (substring 7 h)); SendJson 401 code message]))
  /\
  (code = "tenant_not_allowed" ->
     middleware req =
       (req, [CallParseToken (trim (substring 7 h));
              SendJson 403 "tenant_not_allowed" message])).
Proof.
  intros Hh Hp Ht Hthrow.
  rewrite (run_bearer_token _ _ req h Hh Hp Ht). cbv zeta. rewrite Hthrow.
  split.
  - by intros [-> | ->].
  - by intros ->.
Qed.

(** C9: every run of [bearerAuthMiddleware] either succeeds, with
    [req.auth] set to the token, the user identifier, the tenant and the
    parsed token, [req.rateLimitUserId] set to the subject, and [next()]
    called exactly once and no response written; or fails, with exactly one
    JSON error written, [next()] never called and the request left as it
    was.  The handlers after it on the route run only in the first case,
    on a request whose [auth] is set. *)
Theorem admission_outcomes req :
  let '(req', es) := middleware req in
  (exists token parsed uid,
      parseToken token = Returns parsed /\
      getUserIdentifier parsed = Returns uid /\
      auth req' = Some {| token := token; userId := uid;
                          tenantId := tid parsed; parsedToken := parsed |} /\
      rateLimitUserId req' = Some (oid parsed) /\
      count isCallNext es = 1%nat /\ count isSendJson es = 0%nat /\
      route req =
        (let '(req2, es') := runChain [rateLimit; handleMcpRequest] req' in
         (req2, es ++ es')))
  \/
  (req' = req /\ auth req' = auth req /\
   count isSendJson es = 1%nat /\ count isCallNext es = 0%nat /\
   route req = (req, es)).
Proof.
  destruct (truthy_opt (authorization req)) eqn:Hhdr.
  2:{ rewrite run_no_header by done. right. repeat split.
      by apply route_of_rejection, run_no_header. }
  apply truthy_opt_true_iff in Hhdr as (h & Hh & Hne).
  destruct (startsWith "Bearer " h) eqn:Hp.
  2:{ rewrite (run_not_bearer _ _ req h) by done. right. repeat split.
      by apply route_of_rejection, run_not_bearer with h. }
  destruct (decide (trim (substring 7 h) = EmptyString)) as [Ht|Ht].
  { rewrite (run_bearer_empty _ _ req h) by done. right. repeat split.
    by apply route_of_rejection, run_bearer_empty with h. }
  pose proof (run_bearer_token parseToken getUserIdentifier req h Hh Hp Ht) as Hrun.
  cbv zeta in Hrun. unfold mcpRoute.
  destruct (parseToken (trim (substring 7 h))) as [parsed|e] eqn:Hparse.
  - destruct (getUserIdentifier parsed) as [uid|e] eqn:Hid.
    + rewrite Hrun. left. exists (trim (substring 7 h)), parsed, uid.
      repeat split; try done.
      by rewrite (runChain_continues _ _ _ _ _ Hrun).
    + destruct (onCatch_sends e) as (st & err & d & Hc). rewrite Hc in Hrun.
      rewrite Hrun. right. repeat split.
      by rewrite (runChain_stops _ _ _ _ _ Hrun).
  - destruct (onCatch_sends e) as (st & err & d & Hc). rewrite Hc in Hrun.
    rewrite Hrun. right. repeat split.
    by rewrite (runChain_stops _ _ _ _ _ Hrun).
Qed.

End AdmissionClaims.

Section AdmissionExamples.
Import Js Middleware AuthScheme Samples.

(** A header that is present but empty does not use the Bearer scheme, and
    the answer is the one for a missing header, whose description does not
    mention the Bearer scheme. *)
Lemma empty_header_reported_missing :
  authorization (request (Some EmptyString)) <> None /\
  startsWith "Bearer " EmptyString = false /\
  forall parseToken getUserIdentifier,
    exists d,
      (bearerAuthMiddleware parseToken getUserIdentifier
         (request (Some EmptyString))).2 = [SendJson 401 "invalid_request" d] /\
      includes "Bearer" d = false.
Proof.
  split; [done|]. split; [done|].
  intros p g. by exists "Missing Authorization header".
Qed.

(** The header "Bearer", which is how a Bearer header without a token
    arrives once trailing white space is stripped, names the Bearer
    scheme and has an empty token; it fails the test for the prefix
    "Bearer " and is answered [invalid_request], not [invalid_token]. *)
Lemma bare_bearer_reported_as_wrong_scheme :
  usesBearerScheme "Bearer" = true /\
  authToken "Bearer" = EmptyString /\
  forall parseToken getUserIdentifier,
    (bearerAuthMiddleware parseToken getUserIdentifier (request (Some "Bearer"))).2
      = [SendJson 401 "invalid_request"
           "Authorization header must use Bearer scheme"].
Proof. by repeat split. Qed.

(** C6, as stated, fails on two headers.  One that is present but empty
    is reported as missing, with a description that does not mention the
    Bearer scheme; the bare "Bearer", a Bearer header with an empty
    token, is answered [invalid_request] where the claim has
    [invalid_token]. *)
Lemma malformed_header_not_as_claimed :
  (authorization (request (Some EmptyString)) <> None /\
   usesBearerScheme EmptyString = false /\
   forall parseToken getUserIdentifier,
     exists d,
       (bearerAuthMiddleware parseToken getUserIdentifier
          (request (Some EmptyString))).2 = [SendJson 401 "invalid_request" d] /\
       includes "Bearer" d = false)
  /\
  (usesBearerScheme "Bearer" = true /\
   authToken "Bearer" = EmptyString /\
   forall parseToken getUserIdentifier,
     exists d,
       (bearerAuthMiddleware parseToken getUserIdentifier
          (request (Some "Bearer"))).2 = [SendJson 401 "invalid_request" d] /\
       "invalid_request" <> "invalid_token").
Proof.
  split.
  - split; [done|]. split; [done|].
    intros p g. by exists "Missing Authorization header".
  - split; [done|]. split; [done|].
    intros p g. by exists "Authorization header must use Bearer scheme".
Qed.

Lemma malformed_header_rejected_witness :
  bearerAuthMiddleware accepting identify (request None)
    = (request None,
       [SendJson 401 "invalid_request" "Missing Authorization header"]) /\
  mcpRoute accepting identify passThrough silent (request (Some "Basic dXNlcjpwdw=="))
    = (request (Some "Basic dXNlcjpwdw=="),
       [SendJson 401 "invalid_request"
          "Authorization header must use Bearer scheme"]) /\
  mcpRoute accepting identify passThrough silent (request (Some blankBearer))
    = (request (Some blankBearer),
       [SendJson 401 "invalid_token" "Bearer token is empty"]).
Proof.
  split; [|split].
  - apply (malformed_header_rejected accepting identify passThrough silent
             (request None)).
    left. reflexivity.
  - apply (malformed_header_rejected accepting identify passThrough silent
             (request (Some "Basic dXNlcjpwdw=="))) with "Basic dXNlcjpwdw==".
    + reflexivity.
    + discriminate.
    + reflexivity.
  - apply (malformed_header_rejected accepting identify passThrough silent
             (request (Some blankBearer))) with blankBearer.
    + reflexivity.
    + reflexivity.
    + reflexivity.
Defined.

Lemma validation_error_status_witness :
  bearerAuthMiddleware (rejecting "expired_token" "Token has expired") identify
      (request (Some "Bearer aaa.bbb.ccc"))
    = (request (Some "Bearer aaa.bbb.ccc"),
       [CallParseToken "aaa.bbb.ccc";
        SendJson 401 "expired_token" "Token has expired"]) /\
  bearerAuthMiddleware (rejecting "tenant_not_allowed" "Tenant is not allowed") identify
      (request (Some "Bearer aaa.bbb.ccc"))
    = (request (Some "Bearer aaa.bbb.ccc"),
       [CallParseToken "aaa.bbb.ccc";
        SendJson 403 "tenant_not_allowed" "Tenant is not allowed"]).
Proof.
  split.
  - apply (validation_error_status (rejecting "expired_token" "Token has expired")
             identify (request (Some "Bearer aaa.bbb.ccc")) "Bearer aaa.bbb.ccc"
             "expired_token" "Token has expired").
    + reflexivity.
    + reflexivity.
    + discriminate.
    + reflexivity.
    + right. reflexivity.
  - apply (validation_error_status
             (rejecting "tenant_not_allowed" "Tenant is not allowed")
             identify (request (Some "Bearer aaa.bbb.ccc")) "Bearer aaa.bbb.ccc"
             "tenant_not_allowed" "Tenant is not allowed").
    + reflexivity.
    + reflexivity.
    + discriminate.
    + reflexivity.
    + reflexivity.
Defined.

(** A token that parses is admitted: the context is attached and the rest
    of the route runs. *)
Example admitted_request :
  mcpRoute accepting identify passThrough silent
      (request (Some "Bearer aaa.bbb.ccc"))
    = ({| authorization := Some "Bearer aaa.bbb.ccc"; path := "/mcp";
          auth := Some {| token := "aaa.bbb.ccc"; userId := "alice@contoso.com";
                          tenantId := "contoso-tid"; parsedToken := alice |};
          rateLimitUserId := Some "00000000-aaaa" |},
       [CallParseToken "aaa.bbb.ccc"; CallGetUserIdentifier alice;
        CallNext; CallNext]).
Proof. reflexivity. Qed.

End AdmissionExamples.

(** ** [URLSearchParams] *)
Section SearchParamsFacts.
Import URLSearchParams.

Lemma getAll_nil name : getAll name [] = [].
Proof. done. Qed.

Lemma getAll_cons name k v ps :
  getAll name ((k, v) :: ps) =
    if decide (k = name) then v :: getAll name ps else getAll name ps.
Proof. unfold getAll. rewrite filter_cons. cbn [fst]. by case_decide. Qed.

Lemma remove_cons name k v ps :
  remove name ((k, v) :: ps) =
    if decide (k = name) then remove name ps else (k, v) :: remove name ps.
Proof.
  unfold remove. rewrite filter_cons. cbn [fst].
  destruct (decide (k = name)); by case_decide.
Qed.

Lemma getAll_remove name other ps :
  getAll name (remove other ps) =
    if decide (name = other) then [] else getAll name ps.
Proof.
  induction ps as [|[k v] ps IH]; [by case_decide|].
  rewrite remove_cons, getAll_cons.
  destruct (decide (k = other)) as [->|Hk].
  - rewrite IH. repeat case_decide; congruence.
  - rewrite getAll_cons, IH. repeat case_decide; congruence.
Qed.

(** After [set(name, value)] the only value under [name] is [value]. *)
Lemma getAll_set_same name value ps : getAll name (set name value ps) = [value].
Proof.
  induction ps as [|[k v] ps IH]; cbn [set].
  - rewrite getAll_cons. by case_decide.
  - case_decide as Hk.
    + rewrite getAll_cons, getAll_remove. by repeat case_decide.
    + rewrite getAll_cons. by case_decide.
Qed.

(** [set] on one name leaves the values under every other name alone. *)
Lemma getAll_set_other name other value ps :
  name <> other -> getAll name (set other value ps) = getAll name ps.
Proof.
  intros Hne. induction ps as [|[k v] ps IH]; cbn [set].
  - rewrite getAll_cons. by case_decide.
  - case_decide as Hk.
    + subst k. rewrite !getAll_cons, getAll_remove. by repeat case_decide.
    + rewrite !getAll_cons, IH. done.
Qed.

Lemma elem_of_remove p name ps : p ∈ remove name ps -> p ∈ ps.
Proof. unfold remove. rewrite list_elem_of_filter. tauto. Qed.

(** [set] adds nothing but the tuple it was given. *)
Lemma elem_of_set p name value ps :
  p ∈ set name value ps -> p = (name, value) \/ p ∈ ps.
Proof.
  induction ps as [|[k v] ps IH]; cbn [set].
  - rewrite list_elem_of_singleton. tauto.
  - case_decide as Hk.
    + rewrite !elem_of_cons. intros [->|Hp%elem_of_remove]; tauto.
    + rewrite !elem_of_cons. intros [->|Hp]; [tauto|]. apply IH in Hp. tauto.
Qed.

End SearchParamsFacts.

(** ** Authorization endpoint *)
Section AuthorizeFacts.
Import Js Config Metadata.

(** What the loop over the allowlist can add: values the caller gave, as
    strings, under allowlisted names. *)
Lemma elem_of_forwarded query names : forall ps k v,
  (k, v) ∈ foldl (forwardParam query) ps names ->
  (k, v) ∈ ps \/ (k ∈ names /\ query !! k = Some (QString v)).
Proof.
  induction names as [|n names IH]; intros ps k v; cbn [foldl]; [tauto|].
  intros [Hin | [Hk Hq]]%IH.
  - unfold forwardParam in Hin.
    destruct (query !! n) as [[value| |]|] eqn:Hn; try tauto.
    destruct (truthy value); [|tauto].
    apply elem_of_set in Hin as [[= -> ->]|Hin]; [|tauto].
    right. split; [left | done].
  - right. split; [by right | done].
Qed.

(** The loop reads the query only at the allowlisted names. *)
Lemma forwarded_ext query query' names : forall ps,
  (forall k, k ∈ names -> query' !! k = query !! k) ->
  foldl (forwardParam query') ps names = foldl (forwardParam query) ps names.
Proof.
  induction names as [|n names IH]; intros ps Hagree; cbn [foldl]; [done|].
  unfold forwardParam at 2 4. rewrite (Hagree n) by left.
  apply IH. intros k Hk. apply Hagree. by right.
Qed.

Variable newURL : string -> URL.
Variable requiredScopes : list string.

(** C1: the redirect URL of [GET /authorize] carries exactly one
    [client_id], the gateway's own, whatever the caller sent.  Every
    parameter of the URL is either part of the configured upstream
    endpoint, the gateway's [client_id], the default scope, or a string the
    caller gave under an allowlisted name; and the URL depends on the
    caller's query only through the allowlisted names. *)
Theorem authorize_overrides_client_id config query :
  let url := authorize newURL requiredScopes config query in
  let endpoint :=
    newURL (authorizationEndpoint (getAuthEndpoints (tenantId config))) in
  URLSearchParams.getAll "client_id" (searchParams url) = [clientId config]
  /\
  (forall k v, (k, v) ∈ searchParams url ->
     (k, v) ∈ searchParams endpoint \/
     (k = "client_id" /\ v = clientId config) \/
     (k = "scope" /\ v = join " " requiredScopes) \/
     (k ∈ allowedParams /\ query !! k = Some (QString v)))
  /\
  (forall query',
     (forall k, k ∈ allowedParams -> query' !! k = query !! k) ->
     authorize newURL requiredScopes config query' = url).
Proof.
  cbv zeta. unfold authorize. cbn [searchParams].
  set (endpoint := newURL _).
  set (ps := foldl (forwardParam query) (searchParams endpoint) allowedParams).
  split; [|split].
  - destruct (negb _).
    + rewrite getAll_set_other by done. apply getAll_set_same.
    + apply getAll_set_same.
  - intros k v Hin.
    assert ((k, v) ∈ URLSearchParams.set "client_id" (clientId config) ps \/
            (k = "scope" /\ v = join " " requiredScopes)) as [Hc|Hs].
    { destruct (negb _); [|by left].
      apply elem_of_set in Hin as [[= -> ->]|Hin]; [by right | by left]. }
    + apply elem_of_set in Hc as [[= -> ->]|Hc]; [tauto|].
      apply elem_of_forwarded in Hc. tauto.
    + tauto.
  - intros query' Hagree. fold endpoint.
    by rewrite (forwarded_ext query query' allowedParams _ Hagree).
Qed.

End AuthorizeFacts.

Section AuthorizeExamples.
Import Js Config Metadata Samples.

(** [GET /authorize?response_type=code&redirect_uri=X&client_id=evil123]. *)
Example authorize_confused_client :
  authorize plainURL ["Mail.Read"; "offline_access"] gateway confusedQuery
    = {| location := "https://login.microsoftonline.com/common/oauth2/v2.0/authorize";
         searchParams := [("response_type", "code"); ("redirect_uri", "X");
                          ("client_id", "gateway-app-id");
                          ("scope", "Mail.Read offline_access")] |}.
Proof. vm_compute. reflexivity. Qed.

Lemma authorize_overrides_client_id_witness :
  authorize plainURL ["Mail.Read"] gateway noisyQuery
    = authorize plainURL ["Mail.Read"] gateway confusedQuery.
Proof.
  apply (authorize_overrides_client_id plainURL ["Mail.Read"] gateway confusedQuery).
  intros k Hk. unfold allowedParams in Hk.
  repeat (apply elem_of_cons in Hk as [->|Hk]; [vm_compute; reflexivity|]).
  by apply elem_of_nil in Hk.
Defined.

End AuthorizeExamples.

(** ** Token endpoint *)
Section TokenFacts.
Import Js Config Metadata.

Lemma getAll_setIfTruthy_other name other o ps :
  name <> other ->
  URLSearchParams.getAll name (setIfTruthy other o ps) = URLSearchParams.getAll name ps.
Proof.
  intros Hne. unfold setIfTruthy. destruct o as [v|]; [|done].
  destruct (truthy v); [by apply getAll_set_other | done].
Qed.

Lemma getAll_setIfTruthy_same name o ps :
  URLSearchParams.getAll name (setIfTruthy name o ps) =
    if truthy_opt o then [default EmptyString o] else URLSearchParams.getAll name ps.
Proof.
  unfold setIfTruthy. destruct o as [v|]; [|done]. cbn [truthy_opt].
  destruct (truthy v); [apply getAll_set_same | done].
Qed.

Variable fetch : string -> URLSearchParams.t -> FetchResult.

(** The [try] block contacts upstream once and then answers once. *)
Lemma forward_shape endpoint params :
  exists answer,
    forward fetch endpoint params = [Fetch endpoint params; answer] /\
    isFetch answer = false.
Proof.
  unfold forward. destruct (fetch endpoint params) as [[] status data|msg];
    cbn [negb]; eauto.
Qed.

Lemma elem_of_forward url params endpoint ps :
  Fetch url params ∈ forward fetch endpoint ps -> url = endpoint /\ params = ps.
Proof.
  destruct (forward_shape endpoint ps) as (answer & -> & Hans).
  rewrite !elem_of_cons, elem_of_nil.
  intros [[= -> ->] | [<- | []]]; [done | discriminate].
Qed.

(** C10: whatever [POST /token] sends upstream carries the gateway's
    [clientId] as its only [client_id], and as [client_secret] the
    configured secret when there is one and nothing otherwise; the handler
    never reads the caller's [client_id] or [client_secret], so two bodies
    that differ only there are handled identically. *)
Theorem token_uses_gateway_credentials config body :
  (forall url params, Fetch url params ∈ token fetch config body ->
     url = tokenEndpoint (getAuthEndpoints (tenantId config)) /\
     URLSearchParams.getAll "client_id" params = [clientId config] /\
     URLSearchParams.getAll "client_secret" params =
       if truthy_opt (clientSecret config)
       then [default EmptyString (clientSecret config)] else [])
  /\
  (forall body',
     (forall k, k <> "client_id" -> k <> "client_secret" -> body' !! k = body !! k) ->
     token fetch config body' = token fetch config body).
Proof.
  split.
  - intros url params. unfold token.
    destruct (negb (truthy_opt (body !! "grant_type")));
      [by intros [=]%list_elem_of_singleton|].
    repeat case_decide.
    + destruct (_ || _); [by intros [=]%list_elem_of_singleton|].
      intros [-> ->]%elem_of_forward. split; [done|]. split.
      * rewrite getAll_setIfTruthy_other, !getAll_set_other,
          getAll_setIfTruthy_other, getAll_set_other by done.
        apply getAll_set_same.
      * rewrite getAll_setIfTruthy_other, !getAll_set_other,
          getAll_setIfTruthy_same, !getAll_set_other by done.
        done.
    + destruct (negb _); [by intros [=]%list_elem_of_singleton|].
      intros [-> ->]%elem_of_forward. split; [done|]. split.
      * rewrite getAll_set_other, getAll_setIfTruthy_other, getAll_set_other by done.
        apply getAll_set_same.
      * rewrite getAll_set_other, getAll_setIfTruthy_same, !getAll_set_other by done.
        done.
    + by intros [=]%list_elem_of_singleton.
  - intros body' Hagree. unfold token.
    by rewrite (Hagree "grant_type"), (Hagree "code"), (Hagree "redirect_uri"),
      (Hagree "code_verifier"), (Hagree "refresh_token").
Qed.

End TokenFacts.

Section TokenExamples.
Import Js Config Metadata Samples.

(** What goes upstream for an authorization-code grant. *)
Example token_code_grant_forwarded :
  token upstream gateway codeGrantWithCredentials
    = [Fetch "https://login.microsoftonline.com/common/oauth2/v2.0/token"
         [("client_id", "gateway-app-id"); ("grant_type", "authorization_code");
          ("client_secret", "gateway-secret"); ("code", "abc");
          ("redirect_uri", "http://localhost/cb")];
       SendData 200 "{}"].
Proof. vm_compute. reflexivity. Qed.

Lemma token_uses_gateway_credentials_witness :
  token upstream gateway codeGrantWithCredentials = token upstream gateway codeGrant.
Proof.
  apply (token_uses_gateway_credentials upstream gateway codeGrant).
  intros k Hid Hsecret. unfold codeGrantWithCredentials.
  rewrite lookup_insert_ne by congruence.
  rewrite lookup_insert_ne by congruence.
  reflexivity.
Defined.

End TokenExamples.

(** ** Dynamic client registration *)
Section RegisterFacts.
Import Metadata.

Variable randomUUID : nat -> string.

Lemma nonempty_of_length (s : string) n : String.length s = S n -> s <> EmptyString.
Proof. by intros H ->. Qed.

(** C8: [POST /register] without [redirect_uris] answers 201 with an empty
    [redirect_uris] and a generated, non-empty [client_id] and
    [client_secret], and stores the client under that id; and two
    registrations in a row return different [client_id]s.  [randomUUID]
    is taken to return 36-character identifiers, and the four identifiers
    the two calls draw to be pairwise distinct. *)
Theorem register_mints_fresh_client :
  (forall i, String.length (randomUUID i) = 36%nat) ->
  (forall nowMs body st,
     Body.redirect_uris body = None ->
     let '(st', (status, reply)) := register randomUUID nowMs body st in
     status = 201 /\
     Reply.redirect_uris reply = [] /\
     Reply.client_id reply <> EmptyString /\
     Reply.client_secret reply <> EmptyString /\
     redirect_uris <$> getRegisteredClient (Reply.client_id reply) st' = Some [])
  /\
  (forall now1 now2 body1 body2 st,
     NoDup (randomUUID <$> seq (draws st) 4) ->
     let '(st1, (_, reply1)) := register randomUUID now1 body1 st in
     let '(_, (_, reply2)) := register randomUUID now2 body2 st1 in
     Reply.client_id reply1 <> Reply.client_id reply2).
Proof.
  intros Hlen. split.
  - intros nowMs body st Hnone.
    unfold register, getRegisteredClient. cbn. rewrite Hnone. cbn.
    repeat split.
    + by apply nonempty_of_length with 35%nat.
    + by apply nonempty_of_length with 35%nat.
    + by rewrite lookup_insert_eq.
  - intros now1 now2 body1 body2 st Hfresh.
    unfold register. cbn. cbn in Hfresh.
    apply NoDup_cons in Hfresh as [Hnotin _].
    intros Heq. apply Hnotin. rewrite Heq. set_solver.
Qed.

End RegisterFacts.

Section RegisterExamples.
Import Metadata Samples.

Lemma sampleUUID_length i : String.length (sampleUUID i) = 36%nat.
Proof. reflexivity. Qed.

Example register_bare_body :
  (register sampleUUID 1700000000123 bareBody initialState).2
    = (201,
       {| Reply.client_id := "3f2a6c1e-7b5d-4e8a-9c0f-000000000000";
          Reply.client_secret := "3f2a6c1e-7b5d-4e8a-9c0f-000000000001";
          Reply.client_name := Some "inspector";
          Reply.redirect_uris := [];
          Reply.grant_types := ["authorization_code"; "refresh_token"];
          Reply.response_types := ["code"];
          Reply.token_endpoint_auth_method := "client_secret_post";
          Reply.client_id_issued_at := 1700000000 |}).
Proof. vm_compute. reflexivity. Qed.

Lemma register_mints_fresh_client_witness :
  (let '(st', (status, reply)) :=
     register sampleUUID 1700000000123 bareBody initialState in
   status = 201 /\
   Reply.redirect_uris reply = [] /\
   Reply.client_id reply <> EmptyString /\
   Reply.client_secret reply <> EmptyString /\
   redirect_uris <$> getRegisteredClient (Reply.client_id reply) st' = Some [])
  /\
  (let '(st1, (_, reply1)) :=
     register sampleUUID 1700000000123 bareBody initialState in
   let '(_, (_, reply2)) := register sampleUUID 1700000000456 bareBody st1 in
   Reply.client_id reply1 <> Reply.client_id reply2).
Proof.
  destruct (register_mints_fresh_client sampleUUID sampleUUID_length)
    as [Hone Htwo].
  split.
  - apply (Hone 1700000000123 bareBody initialState). reflexivity.
  - apply (Htwo 1700000000123 1700000000456 bareBody bareBody initialState).
    apply (bool_decide_unpack _). vm_compute. exact I.
Defined.

End RegisterExamples.

(** ** Claim extractor and tenant gate *)
Section TokenValidatorFacts.
Import Js Middleware TokenValidator.

(** C5: with an empty allowlist the tenant gate accepts every tenant
    string, the empty one included; with a non-empty allowlist it accepts
    exactly the members of the list, compared as strings, so that
    "Contoso" does not admit "contoso". *)
Theorem check_allowlist :
  (forall tenantId, check tenantId ∅ = None)
  /\
  (forall tenantId allowlist, allowlist <> ∅ ->
     (check tenantId allowlist = None <-> tenantId ∈ allowlist))
  /\
  check "Contoso" {[ "Contoso" ]} = None
  /\
  check "contoso" {[ "Contoso" ]} = Some TenantNotAllowed.
Proof.
  split; [|split; [|split]].
  - intros tenantId. unfold check. by rewrite decide_True.
  - intros tenantId allowlist Hne. unfold check.
    rewrite decide_False by done.
    case_decide; split; done.
  - unfold check. rewrite decide_False by set_solver.
    by rewrite decide_True by set_solver.
  - unfold check. rewrite decide_False by set_solver.
    by rewrite decide_False by set_solver.
Qed.

Variable decodePayload : string -> option (gmap string JsonValue).

(** C4: for a three-segment token whose payload decodes to a claim set
    with an expiry, a subject and a tenant, [parse] fails with
    [ExpiredToken] when the expiry is strictly before the current time,
    and returns the claims when the expiry is the current time or
    later. *)
Theorem parse_expiry_boundary now token hd payload sig claims e o t :
  segments token = [hd; payload; sig] ->
  decodePayload payload = Some claims ->
  claims !! "exp" = Some (JNumber e) ->
  claims !! "oid" = Some (JString o) ->
  claims !! "tid" = Some (JString t) ->
  (e < now -> parse decodePayload now token = inl ExpiredToken)
  /\
  (e = now ->
     exists p, parse decodePayload now token = inr p /\
               exp p = now /\ oid p = o /\ tid p = t)
  /\
  (now < e ->
     exists p, parse decodePayload now token = inr p /\
               exp p = e /\ oid p = o /\ tid p = t).
Proof.
  intros Hseg Hdec Hexp Hoid Htid. unfold parse.
  rewrite Hseg, Hdec, Hexp, Hoid, Htid.
  split; [|split]; intros Hcmp.
  - by rewrite (proj2 (Z.ltb_lt e now)).
  - rewrite (proj2 (Z.ltb_ge e now)) by lia. subst e. eauto.
  - rewrite (proj2 (Z.ltb_ge e now)) by lia. eauto.
Qed.

End TokenValidatorFacts.

Section TokenValidatorExamples.
Import Js Middleware TokenValidator Samples.

Lemma check_allowlist_witness :
  check "contoso-tid" {[ "contoso-tid"; "fabrikam-tid" ]} = None <->
  "contoso-tid" ∈ ({[ "contoso-tid"; "fabrikam-tid" ]} : gset string).
Proof.
  apply check_allowlist. set_solver.
Defined.

Lemma parse_expiry_boundary_witness :
  parse (claimsExpiringAt 1000) 1001 "aaa.bbb.ccc" = inl ExpiredToken /\
  exists p, parse (claimsExpiringAt 1000) 1000 "aaa.bbb.ccc" = inr p /\
            exp p = 1000 /\ oid p = "00000000-aaaa" /\ tid p = "contoso-tid".
Proof.
  split.
  - destruct (parse_expiry_boundary (claimsExpiringAt 1000) 1001 "aaa.bbb.ccc"
                "aaa" "bbb" "ccc" (claimsAt 1000) 1000 "00000000-aaaa" "contoso-tid")
      as (Hpast & _ & _); [reflexivity .. |].
    apply Hpast. lia.
  - destruct (parse_expiry_boundary (claimsExpiringAt 1000) 1000 "aaa.bbb.ccc"
                "aaa" "bbb" "ccc" (claimsAt 1000) 1000 "00000000-aaaa" "contoso-tid")
      as (_ & Hnow & _); [reflexivity .. |].
    apply Hnow. reflexivity.
Defined.

(** Tokens that are not three segments, or whose claims lack the expiry,
    are invalid rather than non-expiring. *)
Example parse_two_segments :
  parse (claimsExpiringAt 1000) 0 "aaa.bbb" = inl InvalidToken.
Proof. reflexivity. Qed.

Example parse_without_expiry :
  parse (fun _ => Some {[ "oid" := JString "o"; "tid" := JString "t" ]}) 0
    "aaa.bbb.ccc" = inl InvalidToken.
Proof. reflexivity. Qed.

End TokenValidatorExamples.

(** ** Rate limiter *)
Section RateLimiterFacts.
Import RateLimiter.

Lemma touch_expired windowMs now w :
  now - windowStartMs w > windowMs ->
  touch windowMs now (Some w) = {| windowStartMs := now; requestCount := 1 |}.
Proof.
  intros H. unfold touch. by rewrite (proj2 (Z.gtb_gt _ _)) by lia.
Qed.

Lemma touch_live windowMs now w :
  now - windowStartMs w <= windowMs ->
  touch windowMs now (Some w) =
    {| windowStartMs := windowStartMs w; requestCount := requestCount w + 1 |}.
Proof.
  intros H. unfold touch.
  destruct (Z.gtb_spec (now - windowStartMs w) windowMs); [lia | done].
Qed.

(** A denied caller inside the window is told to wait at least a second. *)
Lemma ceilDiv_pos a : 0 < a -> 0 < ceilDiv a 1000.
Proof.
  intros Ha. unfold ceilDiv.
  assert ((- a) `div` 1000 < 0) by (apply Z.div_lt_upper_bound; lia).
  lia.
Qed.

(** The decisions of a run, call by call. *)
Lemma admitSequence_cons limit windowMs k now rest store :
  admitSequence limit windowMs k (now :: rest) store =
    (admitIdentity limit windowMs now k store).2 ::
    admitSequence limit windowMs k rest (<[k := touch windowMs now (store !! k)]> store).
Proof. done. Qed.

(** C2: [admit(k)] starts a fresh window, with count 1 and start [now],
    when the identity has no window or its window is older than
    [windowMs], and otherwise increments the count of the existing window;
    the windows of other identities are left alone; the decision has
    [allowed = (count <= limit)], [remaining = max(0, limit - count)] and
    [resetAtMs = windowStartMs + windowMs], and a denial carries
    [retryAfterSeconds = ceil((resetAtMs - now) / 1000)].  With limit 3
    and a window of 60000 ms, for an identity without a live window, three
    admits no later than 60000 ms after the first are allowed with 2, 1
    and 0 remaining, a fourth before the window's reset time is denied
    with a positive [retryAfterSeconds], and a fifth after the window has
    elapsed is allowed with 2 remaining. *)
Theorem rate_limit_window_policy :
  (forall limit windowMs now k store,
     let '(store', d) := admitIdentity limit windowMs now k store in
     exists w,
       store' !! k = Some w /\
       (forall k', k' <> k -> store' !! k' = store !! k') /\
       (store !! k = None \/
        (exists w0, store !! k = Some w0 /\ now - windowStartMs w0 > windowMs) ->
        w = {| windowStartMs := now; requestCount := 1 |}) /\
       (forall w0, store !! k = Some w0 -> now - windowStartMs w0 <= windowMs ->
        w = {| windowStartMs := windowStartMs w0;
               requestCount := requestCount w0 + 1 |}) /\
       allowed d = bool_decide (requestCount w <= limit) /\
       remaining d = Z.max 0 (limit - requestCount w) /\
       resetAtMs d = windowStartMs w + windowMs /\
       retryAfterSeconds d =
         if allowed d then None else Some (ceilDiv (resetAtMs d - now) 1000))
  /\
  (forall U store t1 t2 t3 t4 t5,
     store !! U = None \/
       (exists w0, store !! U = Some w0 /\ t1 - windowStartMs w0 > 60000) ->
     t2 - t1 <= 60000 -> t3 - t1 <= 60000 ->
     t4 < t1 + 60000 -> t1 + 60000 < t5 ->
     exists retryAfter,
       0 < retryAfter /\
       admitSequence 3 60000 U [t1; t2; t3; t4; t5] store =
         [ {| allowed := true; remaining := 2; resetAtMs := t1 + 60000;
              retryAfterSeconds := None |};
           {| allowed := true; remaining := 1; resetAtMs := t1 + 60000;
              retryAfterSeconds := None |};
           {| allowed := true; remaining := 0; resetAtMs := t1 + 60000;
              retryAfterSeconds := None |};
           {| allowed := false; remaining := 0; resetAtMs := t1 + 60000;
              retryAfterSeconds := Some retryAfter |};
           {| allowed := true; remaining := 2; resetAtMs := t5 + 60000;
              retryAfterSeconds := None |} ]).
Proof.
  split.
  - intros limit windowMs now k store. unfold admitIdentity. cbv zeta.
    exists (touch windowMs now (store !! k)). cbn [allowed remaining resetAtMs retryAfterSeconds].
    split; [apply lookup_insert_eq|].
    split; [intros k' Hk'; by apply lookup_insert_ne|].
    split.
    { intros [-> | (w0 & -> & Hold)]; [done | by apply touch_expired]. }
    split.
    { intros w0 -> Hlive. by apply touch_live. }
    split.
    { destruct (Z.leb_spec (requestCount (touch windowMs now (store !! k))) limit).
      - by rewrite bool_decide_eq_true_2.
      - rewrite bool_decide_eq_false_2; [done | lia]. }
    done.
  - intros U store t1 t2 t3 t4 t5 Hnew H2 H3 H4 H5.
    exists (ceilDiv (t1 + 60000 - t4) 1000).
    split; [apply ceilDiv_pos; lia|].
    assert (touch 60000 t1 (store !! U) = {| windowStartMs := t1; requestCount := 1 |})
      as Hfirst.
    { destruct Hnew as [-> | (w0 & -> & Hold)]; [done | by apply touch_expired]. }
    rewrite !admitSequence_cons. unfold admitIdentity. cbv zeta. rewrite Hfirst.
    rewrite !lookup_insert_eq.
    rewrite (touch_live 60000 t2) by (cbn; lia). cbn [windowStartMs requestCount].
    rewrite (touch_live 60000 t3) by (cbn; lia). cbn [windowStartMs requestCount].
    rewrite (touch_live 60000 t4) by (cbn; lia). cbn [windowStartMs requestCount].
    rewrite (touch_expired 60000 t5) by (cbn; lia).
    cbn. reflexivity.
Qed.

End RateLimiterFacts.

Section RateLimiterExamples.
Import RateLimiter.

Lemma rate_limit_window_policy_witness :
  exists retryAfter,
    0 < retryAfter /\
    admitSequence 3 60000 "U" [0; 1000; 2000; 3000; 70000] ∅ =
      [ {| allowed := true; remaining := 2; resetAtMs := 0 + 60000;
           retryAfterSeconds := None |};
        {| allowed := true; remaining := 1; resetAtMs := 0 + 60000;
           retryAfterSeconds := None |};
        {| allowed := true; remaining := 0; resetAtMs := 0 + 60000;
           retryAfterSeconds := None |};
        {| allowed := false; remaining := 0; resetAtMs := 0 + 60000;
           retryAfterSeconds := Some retryAfter |};
        {| allowed := true; remaining := 2; resetAtMs := 70000 + 60000;
           retryAfterSeconds := None |} ].
Proof.
  destruct rate_limit_window_policy as [_ Hrun].
  apply (Hrun "U" ∅ 0 1000 2000 3000 70000); [left; reflexivity | lia ..].
Defined.

(** The run above, evaluated: the denied caller waits 57 seconds. *)
Example admitSequence_sample :
  admitSequence 3 60000 "U" [0; 1000; 2000; 3000; 70000] ∅ =
    [ {| allowed := true; remaining := 2; resetAtMs := 60000;
         retryAfterSeconds := None |};
      {| allowed := true; remaining := 1; resetAtMs := 60000;
         retryAfterSeconds := None |};
      {| allowed := true; remaining := 0; resetAtMs := 60000;
         retryAfterSeconds := None |};
      {| allowed := false; remaining := 0; resetAtMs := 60000;
         retryAfterSeconds := Some 57 |};
      {| allowed := true; remaining := 2; resetAtMs := 130000;
         retryAfterSeconds := None |} ].
Proof. vm_compute. reflexivity. Qed.

(** At the reset time itself the window is still the current one: a call
    then is counted in it, and denied with nothing left to wait. *)
Example admitSequence_at_reset_time :
  admitSequence 3 60000 "U" [0; 1000; 2000; 60000] ∅ =
    [ {| allowed := true; remaining := 2; resetAtMs := 60000;
         retryAfterSeconds := None |};
      {| allowed := true; remaining := 1; resetAtMs := 60000;
         retryAfterSeconds := None |};
      {| allowed := true; remaining := 0; resetAtMs := 60000;
         retryAfterSeconds := None |};
      {| allowed := false; remaining := 0; resetAtMs := 60000;
         retryAfterSeconds := Some 0 |} ].
Proof. vm_compute. reflexivity. Qed.

End RateLimiterExamples.

(** * Further properties of the code *)

(** ** The admission middleware and its optional variant *)
Section MoreAdmissionFacts.
Import Js Middleware OptionalAuth.

Variable parseToken : string -> Outcome ParsedToken.
Variable getUserIdentifier : ParsedToken -> Outcome string.

Abbreviation required := (bearerAuthMiddleware parseToken getUserIdentifier).
Abbreviation optional := (optionalAuthMiddleware parseToken getUserIdentifier).

(** [getStatusCode] knows two statuses, and 403 is for one code only. *)
Lemma getStatusCode_cases code :
  (getStatusCode code = 401 /\ code <> "tenant_not_allowed") \/
  (getStatusCode code = 403 /\ code = "tenant_not_allowed").
Proof.
  unfold getStatusCode. repeat case_decide; subst; try (left; split; [done|]; congruence).
  by right.
Qed.

(** The statuses the [catch] block can answer with. *)
Lemma onCatch_cases e st err d :
  onCatch e = SendJson st err d ->
  (st = 401 /\ err <> "tenant_not_allowed" /\ e = TokenValidationError err d) \/
  (st = 403 /\ err = "tenant_not_allowed" /\ e = TokenValidationError err d) \/
  (st = 500 /\ err = "server_error" /\
   d = "Authentication failed due to internal error" /\
   exists m, e = OtherError m).
Proof.
  destruct e as [code message|m]; cbn [onCatch]; intros [= <- <- <-].
  - destruct (getStatusCode_cases code) as [[-> Hne]|[-> ->]]; [left | right; left]; done.
  - right; right. repeat split. by exists m.
Qed.

(** How a run of the required middleware can go, by the header. *)
Lemma run_shape req :
  (startsWithBearer (authorization req) = false /\
   exists d, required req = (req, [SendJson 401 "invalid_request" d])) \/
  (exists h, authorization req = Some h /\ startsWith "Bearer " h = true /\
   trim (substring 7 h) = EmptyString /\
   required req = (req, [SendJson 401 "invalid_token" "Bearer token is empty"])) \/
  (exists h, authorization req = Some h /\ startsWith "Bearer " h = true /\
   trim (substring 7 h) <> EmptyString).
Proof.
  destruct (authorization req) as [h|] eqn:Hh.
  - destruct (startsWith "Bearer " h) eqn:Hp.
    + destruct (decide (trim (substring 7 h) = EmptyString)) as [Ht|Ht].
      * right; left. exists h. repeat split; try done.
        by apply run_bearer_empty with h.
      * right; right. by exists h.
    + left. split; [done|]. destruct (decide (h = EmptyString)) as [->|Hne].
      * eexists. apply run_no_header. by rewrite Hh.
      * eexists. by apply run_not_bearer with h.
  - left. split; [done|]. eexists. apply run_no_header. by rewrite Hh.
Qed.

Lemma optional_not_bearer req :
  startsWithBearer (authorization req) = false -> optional req = (req, [CallNext]).
Proof. intros H. unfold optionalAuthMiddleware. by rewrite H. Qed.

Lemma optional_bearer_empty req h :
  authorization req = Some h -> startsWith "Bearer " h = true ->
  trim (substring 7 h) = EmptyString -> optional req = (req, [CallNext]).
Proof.
  intros Hh Hp Ht. unfold optionalAuthMiddleware. rewrite Hh.
  cbn [startsWithBearer default from_option id]. by rewrite Hp, Ht.
Qed.

Lemma optional_bearer_token req h :
  authorization req = Some h -> startsWith "Bearer " h = true ->
  trim (substring 7 h) <> EmptyString ->
  optional req =
    let token := trim (substring 7 h) in
    match parseToken token with
    | Throws _ => (req, [CallParseToken token; CallNext])
    | Returns parsed =>
        match getUserIdentifier parsed with
        | Throws _ =>
            (req, [CallParseToken token; CallGetUserIdentifier parsed; CallNext])
        | Returns uid =>
            (set_rateLimitUserId (oid parsed)
               (set_auth {| token := token; userId := uid;
                            tenantId := tid parsed; parsedToken := parsed |} req),
             [CallParseToken token; CallGetUserIdentifier parsed; CallNext])
        end
    end.
Proof.
  intros Hh Hp Ht%truthy_true_iff. unfold optionalAuthMiddleware. rewrite Hh.
  cbn [startsWithBearer default from_option id]. by rewrite Hp, Ht.
Qed.

(** X1: the optional middleware never blocks a request: whatever the
    header and whatever the token validator does, it writes no response
    and calls [next()] exactly once, as its last step. *)
Theorem optional_never_blocks req :
  let '(_, es) := optional req in
  count isCallNext es = 1%nat /\ count isSendJson es = 0%nat /\
  last es = Some CallNext.
Proof.
  destruct (run_shape req) as [[Hnb _] | [(h & Hh & Hp & Ht & _) | (h & Hh & Hp & Ht)]].
  - by rewrite optional_not_bearer.
  - by rewrite (optional_bearer_empty req h).
  - rewrite (optional_bearer_token req h) by done. cbv zeta.
    destruct (parseToken _) as [parsed|e]; [|done].
    by destruct (getUserIdentifier parsed).
Qed.

(** X2: the two middlewares agree on whom they recognise.  When the
    required middleware lets a request through, the optional one does
    exactly the same (same calls, same request afterwards); when the
    required one rejects a request, the optional one passes it on
    untouched, without [auth] or [rateLimitUserId]. *)
Theorem optional_agrees_with_required req :
  let '(reqR, esR) := required req in
  let '(reqO, esO) := optional req in
  if existsb isCallNext esR
  then reqO = reqR /\ esO = esR
  else reqO = req /\ reqR = req.
Proof.
  destruct (run_shape req) as [[Hnb [d Hr]] | [(h & Hh & Hp & Ht & Hr) | (h & Hh & Hp & Ht)]].
  - by rewrite Hr, optional_not_bearer.
  - by rewrite Hr, (optional_bearer_empty req h).
  - rewrite (run_bearer_token _ _ req h), (optional_bearer_token req h) by done.
    cbv zeta. destruct (parseToken _) as [parsed|e].
    + destruct (getUserIdentifier parsed) as [uid|e']; [done|].
      by destruct (onCatch_sends e') as (st & err & d & ->).
    + by destruct (onCatch_sends e) as (st & err & d & ->).
Qed.

(** X3: every response of the required middleware has status 401, 403 or
    500.  Status 403 goes with the error code [tenant_not_allowed] and
    with no other; status 500 always carries the fixed [server_error]
    body, so the text of an unexpected error never reaches the caller. *)
Theorem required_response_statuses req st err d :
  SendJson st err d ∈ (bearerAuthMiddleware parseToken getUserIdentifier req).2 ->
  (st = 401 \/ st = 403 \/ st = 500) /\
  (st = 403 <-> err = "tenant_not_allowed") /\
  (st = 500 ->
     err = "server_error" /\ d = "Authentication failed due to internal error").
Proof.
  assert (forall e, onCatch e = SendJson st err d ->
    (st = 401 \/ st = 403 \/ st = 500) /\
    (st = 403 <-> err = "tenant_not_allowed") /\
    (st = 500 ->
       err = "server_error" /\ d = "Authentication failed due to internal error"))
    as Hcatch.
  { intros e [(-> & Hne & _) | [(-> & -> & _) | (-> & -> & -> & _)]]%onCatch_cases.
    - split; [tauto|]. split; [split; [discriminate | done] | discriminate].
    - split; [tauto|]. split; [done | discriminate].
    - split; [tauto|]. split; [split; discriminate | done]. }
  destruct (run_shape req) as [[Hnb [d' Hr]] | [(h & Hh & Hp & Ht & Hr) | (h & Hh & Hp & Ht)]].
  - rewrite Hr. cbn. intros [=]%list_elem_of_singleton; subst.
    split; [tauto|]. split; [split; discriminate | discriminate].
  - rewrite Hr. cbn. intros [=]%list_elem_of_singleton; subst.
    split; [tauto|]. split; [split; discriminate | discriminate].
  - rewrite (run_bearer_token _ _ req h) by done. cbv zeta.
    destruct (parseToken _) as [parsed|e].
    + destruct (getUserIdentifier parsed) as [uid|e']; cbn [snd];
        rewrite !elem_of_cons, elem_of_nil.
      * intros [[=]|[[=]|[[=]|[]]]].
      * intros [[=]|[[=]|[Heq|[]]]]. by apply (Hcatch e').
    + cbn [snd]. rewrite !elem_of_cons, elem_of_nil.
      intros [[=]|[Heq|[]]]. by apply (Hcatch e).
Qed.

(** X4: on the [/mcp] route the guard of [handleMcpRequest] never fires.
    If the rate-limit middleware does not touch [req.auth], the route
    behaves as if the final handler were the MCP transport alone: the
    handler's own 401 "No valid access token provided" is unreachable
    behind [bearerAuthMiddleware]. *)
Theorem mcp_guard_never_fires (rateLimit serve : Handler) :
  (forall r, auth (rateLimit r).1 = auth r) ->
  forall req,
    mcpRoute parseToken getUserIdentifier rateLimit (Server.handleMcpRequest serve) req
    = mcpRoute parseToken getUserIdentifier rateLimit serve req.
Proof.
  intros Hkeep req. unfold mcpRoute.
  assert (forall r, truthy_opt (token <$> auth r) = true ->
            runChain [rateLimit; Server.handleMcpRequest serve] r
            = runChain [rateLimit; serve] r) as Hrest.
  { intros r Hr. cbn [runChain]. specialize (Hkeep r).
    destruct (rateLimit r) as [r1 es1]. cbn [fst] in Hkeep.
    destruct (existsb isCallNext es1); [|done].
    unfold Server.handleMcpRequest. by rewrite Hkeep, Hr. }
  destruct (run_shape req) as [[Hnb [d Hr]] | [(h & Hh & Hp & Ht & Hr) | (h & Hh & Hp & Ht)]].
  - by rewrite !(runChain_stops _ _ _ _ _ Hr).
  - by rewrite !(runChain_stops _ _ _ _ _ Hr).
  - pose proof (run_bearer_token parseToken getUserIdentifier req h Hh Hp Ht) as Hrun.
    cbv zeta in Hrun.
    destruct (parseToken _) as [parsed|e].
    + destruct (getUserIdentifier parsed) as [uid|e'].
      * rewrite !(runChain_continues _ _ _ _ _ Hrun) by done.
        rewrite Hrest; [done|]. cbn. by apply truthy_true_iff.
      * destruct (onCatch_sends e') as (st & err & d & Hc). rewrite Hc in Hrun.
        by rewrite !(runChain_stops _ _ _ _ _ Hrun).
    + destruct (onCatch_sends e) as (st & err & d & Hc). rewrite Hc in Hrun.
      by rewrite !(runChain_stops _ _ _ _ _ Hrun).
Qed.

End MoreAdmissionFacts.

(** ** Tool filtering and required scopes *)
Section ToolsFacts.
Import Tools.

Lemma elem_of_setAdd y x s : y ∈ setAdd x s <-> y = x \/ y ∈ s.
Proof.
  unfold setAdd. case_decide as Hx.
  - split; [tauto|]. intros [->|]; done.
  - rewrite elem_of_app, list_elem_of_singleton. tauto.
Qed.

Lemma NoDup_setAdd x s : NoDup s -> NoDup (setAdd x s).
Proof.
  intros Hs. unfold setAdd. case_decide as Hx; [done|].
  apply NoDup_app. split; [done|]. split; [|apply NoDup_singleton].
  intros y Hy ->%list_elem_of_singleton. done.
Qed.

Lemma prefix_setAdd x s : s `prefix_of` setAdd x s.
Proof. unfold setAdd. case_decide; [done|]. by apply prefix_app_r. Qed.

(** Adding a list of scopes to a set. *)
Lemma addScopes_spec scopes : forall s,
  let s' := foldl (fun acc scope => setAdd scope acc) s scopes in
  (forall y, y ∈ s' <-> y ∈ s \/ y ∈ scopes) /\
  (NoDup s -> NoDup s') /\ s `prefix_of` s'.
Proof.
  induction scopes as [|x scopes IH]; intros s; cbn [foldl].
  - split; [|done]. intros y. rewrite elem_of_nil. tauto.
  - destruct (IH (setAdd x s)) as (Hin & Hnd & Hpre). cbv zeta in *.
    split; [|split].
    + intros y. rewrite Hin, elem_of_setAdd, elem_of_cons. tauto.
    + intros Hs. by apply Hnd, NoDup_setAdd.
    + etrans; [apply prefix_setAdd | done].
Qed.

(** Adding the scopes of a list of tools to a set. *)
Lemma addTools_spec tools : forall s,
  let s' := foldl (fun acc tool =>
                     foldl (fun acc scope => setAdd scope acc)
                           acc (requiredScopes tool)) s tools in
  (forall y, y ∈ s' <->
             y ∈ s \/ exists t, t ∈ tools /\ y ∈ requiredScopes t) /\
  (NoDup s -> NoDup s') /\ s `prefix_of` s'.
Proof.
  induction tools as [|t tools IH]; intros s; cbn [foldl].
  - split; [|done]. intros y. split; [tauto|].
    intros [|(t & []%elem_of_nil & _)]; done.
  - destruct (addScopes_spec (requiredScopes t) s) as (Hin1 & Hnd1 & Hpre1).
    destruct (IH (foldl (fun acc scope => setAdd scope acc) s (requiredScopes t)))
      as (Hin & Hnd & Hpre). cbv zeta in *.
    split; [|split].
    + intros y. rewrite Hin, Hin1. split.
      * intros [[Hs|Hy]|(t' & Ht' & Hy)].
        -- by left.
        -- right. exists t. split; [apply elem_of_cons; by left | done].
        -- right. exists t'. split; [apply elem_of_cons; by right | done].
      * intros [Hs|(t' & Ht' & Hy)]; [tauto|].
        apply elem_of_cons in Ht' as [->|Ht']; [tauto|].
        right. by exists t'.
    + intros Hs. by apply Hnd, Hnd1.
    + etrans; [apply Hpre1 | done].
Qed.

Variable allTools : list ToolDefinition.

(** X5: [getFilteredTools] keeps the tools of [allTools] in their order
    and keeps exactly those that pass both filters: named in the
    allowlist when the allowlist is not empty, and read-only when
    read-only mode is on.  In particular read-only mode never exposes a
    write tool, even one the allowlist names. *)
Theorem filtered_tools_spec config :
  getFilteredTools allTools config `sublist_of` allTools /\
  (forall t, t ∈ getFilteredTools allTools config <->
     t ∈ allTools /\
     (enabledTools config = [] \/ name t ∈ enabledTools config) /\
     (readOnlyMode config = true -> readOnly t = true)).
Proof.
  unfold getFilteredTools.
  destruct (enabledTools config) as [|e es] eqn:He; cbn [length Nat.ltb Nat.leb];
    destruct (readOnlyMode config); cbv zeta.
  - split; [apply sublist_filter|]. intros t. rewrite list_elem_of_filter.
    intuition congruence.
  - split; [done|]. intros t. intuition congruence.
  - split.
    + etrans; apply sublist_filter.
    + intros t. rewrite !list_elem_of_filter. intuition congruence.
  - split; [apply sublist_filter|]. intros t. rewrite list_elem_of_filter.
    intuition congruence.
Qed.

(** X6: [getRequiredScopes] starts with the two base scopes, lists no
    scope twice, and beyond the base scopes lists exactly the scopes
    required by the tools that pass the filters. *)
Theorem required_scopes_spec config :
  let scopes := getRequiredScopes allTools config in
  (exists rest, scopes = "User.Read" :: "offline_access" :: rest) /\
  NoDup scopes /\
  (forall s, s ∈ scopes <->
     s ∈ BASE_SCOPES \/
     exists t, t ∈ getFilteredTools allTools config /\ s ∈ requiredScopes t).
Proof.
  cbv zeta. unfold getRequiredScopes.
  destruct (addTools_spec (getFilteredTools allTools config) (newSet BASE_SCOPES))
    as (Hin & Hnd & Hpre). cbv zeta in *.
  change (newSet BASE_SCOPES) with BASE_SCOPES in *.
  split; [|split].
  - destruct Hpre as [rest ->]. by exists rest.
  - apply Hnd. unfold BASE_SCOPES. apply NoDup_cons.
    split; [by intros [=]%list_elem_of_singleton | apply NoDup_singleton].
  - done.
Qed.

(** X7: [getTool] finds a tool exactly for the names that [getToolNames]
    lists, and the tool it returns is the first of [allTools] with that
    name. *)
Theorem getTool_spec n :
  (is_Some (getTool allTools n) <-> n ∈ getToolNames allTools) /\
  (forall t, getTool allTools n = Some t ->
     name t = n /\
     exists before after,
       allTools = before ++ t :: after /\ n ∉ (name <$> before)).
Proof.
  unfold getTool, getToolNames. split.
  - induction allTools as [|t ts IH]; cbn [List.find fmap list_fmap].
    + rewrite elem_of_nil. split; [by intros [? [=]] | done].
    + rewrite elem_of_cons. case_bool_decide as Hn.
      * split; [by left | by eexists].
      * rewrite IH. split; [tauto|]. intros [->|]; done.
  - induction allTools as [|t' ts IH]; intros t; cbn [List.find]; [done|].
    case_bool_decide as Hn.
    + intros [= <-]. split; [done|]. exists [], ts. split; [done|].
      cbn. apply not_elem_of_nil.
    + intros Hfind. destruct (IH t Hfind) as (Hname & before & after & -> & Hnot).
      split; [done|]. exists (t' :: before), after. split; [done|].
      cbn [fmap list_fmap]. rewrite elem_of_cons. intros [->|]; done.
Qed.

End ToolsFacts.

(** ** The client registry *)
Section RegistryFacts.
Import Metadata Registry.

Variable randomUUID : nat -> string.

Abbreviation reg := (register randomUUID).
Abbreviation regAll := (registerAll randomUUID).

Lemma register_state nowMs body st :
  (reg nowMs body st).1 =
    {| registeredClients :=
         <[randomUUID (draws st) := stored body (reg nowMs body st).2.2]>
           (registeredClients st);
       draws := S (S (draws st)) |}.
Proof. done. Qed.

Lemma register_reply_id nowMs body st :
  Reply.client_id (reg nowMs body st).2.2 = randomUUID (draws st).
Proof. done. Qed.

Lemma registerAll_cons nowMs body rest st :
  regAll ((nowMs, body) :: rest) st =
    ((regAll rest (reg nowMs body st).1).1,
     (reg nowMs body st).2.2 :: (regAll rest (reg nowMs body st).1).2).
Proof.
  cbn [registerAll]. destruct (reg nowMs body st) as [st1 [status reply]].
  cbn [fst snd]. by destruct (regAll rest st1).
Qed.

(** X8: registration and lookup round-trip.  After [POST /register] the
    client is found under the returned [client_id], with the returned
    secret, name, redirect URIs and issue time; the entry under every
    other id is as it was. *)
Theorem register_then_lookup nowMs body st :
  let '(st', (_, reply)) := reg nowMs body st in
  getRegisteredClient (Reply.client_id reply) st' = Some (stored body reply) /\
  (forall k, k <> Reply.client_id reply ->
     getRegisteredClient k st' = getRegisteredClient k st).
Proof.
  unfold register, getRegisteredClient. cbn. split.
  - apply lookup_insert_eq.
  - intros k Hk. by apply lookup_insert_ne.
Qed.

(** The replies of a run, one per request; the [i]-th client id is the
    draw numbered [draws st + 2 i]. *)
Lemma registerAll_replies reqs : forall st,
  length (regAll reqs st).2 = length reqs /\
  draws (regAll reqs st).1 = (draws st + 2 * length reqs)%nat /\
  (forall i r, (regAll reqs st).2 !! i = Some r ->
     Reply.client_id r = randomUUID (draws st + 2 * i)).
Proof.
  induction reqs as [|[nowMs body] rest IH]; intros st.
  - split; [done|]. split; [cbn; lia|]. intros i r. cbn. by rewrite lookup_nil.
  - rewrite registerAll_cons. cbn [fst snd length].
    destruct (IH (reg nowMs body st).1) as (Hlen & Hdraws & Hids).
    assert (draws (reg nowMs body st).1 = S (S (draws st))) as Hd by done.
    rewrite Hd in Hdraws, Hids.
    repeat split; [lia | lia |].
    intros [|i] r; cbn [lookup list_lookup].
    + intros <-%(inj Some). rewrite register_reply_id. f_equal. lia.
    + intros Hr. rewrite (Hids i r Hr). f_equal. lia.
Qed.

(** A run leaves alone every id it does not hand out. *)
Lemma registerAll_frame reqs : forall st k,
  k ∉ (Reply.client_id <$> (regAll reqs st).2) ->
  registeredClients (regAll reqs st).1 !! k = registeredClients st !! k.
Proof.
  induction reqs as [|[nowMs body] rest IH]; intros st k; [done|].
  rewrite registerAll_cons. cbn [fst snd fmap list_fmap].
  rewrite not_elem_of_cons. intros [Hk Hrest].
  rewrite (IH _ k Hrest), register_state. cbn [registeredClients].
  rewrite register_reply_id in Hk. by rewrite lookup_insert_ne.
Qed.

(** Every entry the registry holds after a run is either an old one or
    one filed under its own id, with a secret. *)
Lemma registerAll_filed reqs : forall st k c,
  registeredClients (regAll reqs st).1 !! k = Some c ->
  registeredClients st !! k = Some c \/
  (client_id c = k /\ is_Some (client_secret c)).
Proof.
  induction reqs as [|[nowMs body] rest IH]; intros st k c; [by left|].
  rewrite registerAll_cons. cbn [fst]. intros [Hold|Hnew]%IH; [|by right].
  rewrite register_state in Hold. cbn [registeredClients] in Hold.
  destruct (decide (randomUUID (draws st) = k)) as [<-|Hne].
  - rewrite lookup_insert_eq in Hold. injection Hold as <-. right.
    split; [done | by eexists].
  - rewrite lookup_insert_ne in Hold by done. by left.
Qed.

Lemma registerAll_size reqs : forall st,
  (size (registeredClients (regAll reqs st).1)
     <= size (registeredClients st) + length reqs)%nat.
Proof.
  induction reqs as [|[nowMs body] rest IH]; intros st; [cbn; lia|].
  rewrite registerAll_cons. cbn [fst length].
  etrans; [apply (IH (reg nowMs body st).1) | ].
  rewrite register_state. cbn [registeredClients].
  destruct (registeredClients st !! randomUUID (draws st)) eqn:Hl.
  - rewrite map_size_insert_Some by done. lia.
  - rewrite map_size_insert_None by done. lia.
Qed.

(** X9: the registry started empty.  After any sequence of registrations
    there is one reply per request, every stored client is filed under
    its own [client_id] and has a secret, and the registry holds at most
    as many clients as there were requests. *)
Theorem registry_invariant reqs :
  let '(st, replies) := regAll reqs initialState in
  length replies = length reqs /\
  (forall k c, getRegisteredClient k st = Some c ->
     client_id c = k /\ is_Some (client_secret c)) /\
  (size (registeredClients st) <= length reqs)%nat.
Proof.
  destruct (regAll reqs initialState) as [st replies] eqn:Hrun.
  destruct (registerAll_replies reqs initialState) as (Hlen & _ & _).
  rewrite Hrun in Hlen. cbn [snd] in Hlen. split; [done|]. split.
  - intros k c Hk. unfold getRegisteredClient in Hk.
    pose proof (registerAll_filed reqs initialState k c) as Hf.
    rewrite Hrun in Hf. cbn [fst] in Hf.
    destruct (Hf Hk) as [Hold|Hnew]; [|done].
    cbn in Hold. by rewrite lookup_empty in Hold.
  - pose proof (registerAll_size reqs initialState) as Hs.
    rewrite Hrun in Hs. cbn [fst] in Hs. cbn in Hs.
    rewrite map_size_empty in Hs. lia.
Qed.

(** X10: when the identifiers drawn during a run are pairwise distinct,
    the run hands out pairwise distinct [client_id]s, and at the end of
    the run every client registered in it is still found under its id,
    with the data of its own request: no registration overwrites
    another. *)
Theorem registerAll_keeps_every_client reqs st :
  NoDup (randomUUID <$> seq (draws st) (2 * length reqs)) ->
  let '(st', replies) := regAll reqs st in
  NoDup (Reply.client_id <$> replies) /\
  (forall i nowMs body reply,
     reqs !! i = Some (nowMs, body) -> replies !! i = Some reply ->
     getRegisteredClient (Reply.client_id reply) st' = Some (stored body reply)).
Proof.
  revert st. induction reqs as [|[nowMs body] rest IH]; intros st Hfresh.
  - cbn. split; [constructor | done].
  - rewrite registerAll_cons.
    set (st1 := (reg nowMs body st).1) in *.
    assert (draws st1 = S (S (draws st))) as Hd by done.
    assert (NoDup (randomUUID <$> seq (draws st1) (2 * length rest))) as Hrest.
    { rewrite Hd. cbn [length] in Hfresh.
      replace (2 * S (length rest))%nat with (2 + 2 * length rest)%nat in Hfresh by lia.
      rewrite seq_app, fmap_app in Hfresh. apply NoDup_app in Hfresh as (_ & _ & H2).
      by replace (draws st + 2)%nat with (S (S (draws st))) in H2 by lia. }
    assert (randomUUID (draws st) ∉ (Reply.client_id <$> (regAll rest st1).2)) as Hhead.
    { intros (r & Hr & Hin)%list_elem_of_fmap.
      apply list_elem_of_lookup in Hin as [j Hj].
      destruct (registerAll_replies rest st1) as (Hlen & _ & Hids).
      pose proof (lookup_lt_Some _ _ _ Hj) as Hlt. rewrite Hlen in Hlt.
      rewrite (Hids j r Hj), Hd in Hr.
      pose proof (proj1 (NoDup_alt _) Hfresh) as Halt.
      assert (0 = 2 + 2 * j)%nat as Habs; [|lia].
      apply (Halt 0%nat (2 + 2 * j)%nat (randomUUID (draws st))).
      - rewrite list_lookup_fmap, lookup_seq_lt by (cbn [length]; lia).
        cbn. f_equal. f_equal. lia.
      - rewrite list_lookup_fmap, lookup_seq_lt by (cbn [length]; lia).
        cbn. rewrite Hr. f_equal. f_equal. lia. }
    specialize (IH st1 Hrest).
    destruct (regAll rest st1) as [st2 replies] eqn:Hrun. cbn [fst snd] in *.
    destruct IH as [Hnd Hget]. split.
    + cbn [fmap list_fmap]. apply NoDup_cons. split; [|done].
      by rewrite register_reply_id.
    + intros [|i] now' body' reply; cbn [lookup list_lookup].
      * intros [= <- <-] <-%(inj Some). unfold getRegisteredClient.
        pose proof (registerAll_frame rest st1 (randomUUID (draws st))) as Hfr.
        rewrite Hrun in Hfr. cbn [fst snd] in Hfr.
        rewrite register_reply_id, (Hfr Hhead).
        unfold st1. rewrite register_state. cbn [registeredClients].
        apply lookup_insert_eq.
      * apply Hget.
Qed.

End RegistryFacts.

(** ** The redirect of [GET /authorize], parameter by parameter *)
Section RedirectFacts.
Import Js Config Metadata Redirect.

Lemma set_fresh k v (ps : URLSearchParams.t) :
  k ∉ ps.*1 -> URLSearchParams.set k v ps = ps ++ [(k, v)].
Proof.
  induction ps as [|[k' v'] ps IH]; cbn [URLSearchParams.set fmap list_fmap fst]; [done|].
  rewrite not_elem_of_cons. intros [Hne Hin].
  rewrite decide_False by done. by rewrite IH.
Qed.

Lemma get_set_same k v ps :
  URLSearchParams.get k (URLSearchParams.set k v ps) = Some v.
Proof.
  induction ps as [|[k' v'] ps IH];
    cbn [URLSearchParams.set URLSearchParams.get]; [by case_decide|].
  case_decide; cbn [URLSearchParams.get]; by case_decide.
Qed.

Lemma get_app k (a b : URLSearchParams.t) :
  URLSearchParams.get k (a ++ b) =
    match URLSearchParams.get k a with
    | Some v => Some v
    | None => URLSearchParams.get k b
    end.
Proof.
  induction a as [|[k' v'] a IH]; cbn [app URLSearchParams.get]; [done|].
  by case_decide.
Qed.

Lemma get_None k (ps : URLSearchParams.t) :
  k ∉ ps.*1 -> URLSearchParams.get k ps = None.
Proof.
  induction ps as [|[k' v'] ps IH]; cbn [URLSearchParams.get fmap list_fmap fst]; [done|].
  rewrite not_elem_of_cons. intros [Hne Hin]. rewrite decide_False by done. auto.
Qed.

Variable query : gmap string QueryValue.

(** The pair added for a name is under that name, with a non-empty value. *)
Lemma forwardedPair_cases k :
  forwardedPair query k = [] \/
  exists v, forwardedPair query k = [(k, v)] /\ truthy v = true /\
            query !! k = Some (QString v).
Proof.
  unfold forwardedPair. destruct (query !! k) as [[v| |]|]; try by left.
  destruct (truthy v) eqn:Hv; [right; by exists v | by left].
Qed.

Lemma elem_of_forwardedPairs_keys k names :
  k ∈ (forwardedPairs query names).*1 <-> k ∈ names /\ forwardedPair query k <> [].
Proof.
  unfold forwardedPairs. induction names as [|n names IH]; cbn [flat_map].
  - cbn. rewrite !elem_of_nil. tauto.
  - rewrite fmap_app, elem_of_app, IH, elem_of_cons.
    destruct (forwardedPair_cases n) as [Hn|(v & Hn & _)]; rewrite Hn; cbn.
    + rewrite elem_of_nil. split; [tauto|].
      intros [[->|Hin] Hne]; [done | tauto].
    + rewrite list_elem_of_singleton. split.
      * intros [->|[Hin Hne]]; [|tauto]. split; [by left | by rewrite Hn].
      * intros [[->|Hin] Hne]; tauto.
Qed.

Lemma forwardParam_fresh ps n :
  n ∉ ps.*1 -> forwardParam query ps n = ps ++ forwardedPair query n.
Proof.
  intros Hn. unfold forwardParam, forwardedPair.
  destruct (query !! n) as [[v| |]|]; try by rewrite app_nil_r.
  destruct (truthy v); [by apply set_fresh | by rewrite app_nil_r].
Qed.

(** On names that are distinct and not yet present, the loop appends. *)
Lemma foldl_forward names : NoDup names -> forall ps,
  (forall n, n ∈ names -> n ∉ ps.*1) ->
  foldl (forwardParam query) ps names = ps ++ forwardedPairs query names.
Proof.
  unfold forwardedPairs.
  induction 1 as [|n names Hn Hnd IH]; intros ps Hfresh; cbn [foldl flat_map].
  - by rewrite app_nil_r.
  - rewrite forwardParam_fresh by (apply Hfresh; by left).
    rewrite IH, <- app_assoc; [done|].
    intros m Hm. rewrite fmap_app, elem_of_app. intros [Hin|Hin].
    + by apply (Hfresh m); [right|].
    + destruct (forwardedPair_cases n) as [Hp|(v & Hp & _)]; rewrite Hp in Hin.
      * by apply elem_of_nil in Hin.
      * apply list_elem_of_singleton in Hin. cbn in Hin. by subst.
Qed.

Lemma get_forwardedPairs k names :
  URLSearchParams.get k (forwardedPairs query names) =
    if bool_decide (k ∈ names)
    then URLSearchParams.get k (forwardedPair query k) else None.
Proof.
  unfold forwardedPairs. induction names as [|n names IH]; cbn [flat_map].
  - by rewrite bool_decide_eq_false_2 by apply not_elem_of_nil.
  - rewrite get_app, IH. destruct (decide (n = k)) as [->|Hne].
    + rewrite (bool_decide_eq_true_2 (k ∈ k :: names)) by (by left).
      destruct (URLSearchParams.get k (forwardedPair query k)); [done|].
      by case_bool_decide.
    + rewrite get_None.
      * assert (bool_decide (k ∈ n :: names) = bool_decide (k ∈ names)) as ->; [|done].
        apply bool_decide_ext. rewrite elem_of_cons. intuition congruence.
      * destruct (forwardedPair_cases n) as [Hp|(v & Hp & _)]; rewrite Hp; cbn.
        -- apply not_elem_of_nil.
        -- by intros ->%list_elem_of_singleton.
Qed.

Lemma NoDup_allowedParams : NoDup allowedParams.
Proof. apply (bool_decide_unpack _). vm_compute. exact I. Qed.

Variable newURL : string -> URL.
Variable requiredScopes : list string.

(** X11: for an upstream endpoint without a query component, the redirect
    of [GET /authorize] carries exactly these parameters, in this order:
    the allowlisted names the caller gave as non-empty strings, in the
    order of the allowlist and each once; then the gateway's [client_id];
    then, only if the caller gave no usable [scope], the default scope.
    Values given as arrays or objects, and empty values, are dropped. *)
Theorem authorize_exact_parameters config :
  searchParams (newURL (authorizationEndpoint (getAuthEndpoints (tenantId config)))) = [] ->
  searchParams (authorize newURL requiredScopes config query) =
    forwardedPairs query allowedParams
    ++ [("client_id", clientId config)]
    ++ match forwardedPair query "scope" with
       | [] => [("scope", join " " requiredScopes)]
       | _ :: _ => []
       end.
Proof.
  intros Hplain. unfold authorize. cbn [searchParams]. rewrite Hplain.
  rewrite foldl_forward; [|apply NoDup_allowedParams|intros n _; apply not_elem_of_nil].
  cbn [app].
  assert ("client_id" ∉ (forwardedPairs query allowedParams).*1) as Hcid.
  { rewrite elem_of_forwardedPairs_keys. intros [Hin _]. revert Hin.
    apply (bool_decide_unpack _). vm_compute. exact I. }
  rewrite (set_fresh "client_id") by done.
  rewrite get_app, get_forwardedPairs.
  rewrite (bool_decide_eq_true_2 ("scope" ∈ allowedParams))
    by (apply (bool_decide_unpack _); vm_compute; exact I).
  destruct (forwardedPair_cases "scope") as [Hs|(v & Hs & Hv & _)]; rewrite Hs.
  - cbn [URLSearchParams.get]. rewrite decide_False by done.
    cbn [truthy_opt negb]. rewrite set_fresh; [by rewrite <- app_assoc|].
    rewrite fmap_app, elem_of_app. intros [Hin|Hin].
    + apply elem_of_forwardedPairs_keys in Hin as [_ Hne]. by rewrite Hs in Hne.
    + cbn in Hin. by apply list_elem_of_singleton in Hin.
  - cbn [URLSearchParams.get]. rewrite decide_True by done.
    cbn [truthy_opt]. rewrite Hv. cbn [negb]. done.
Qed.

(** The scopes [getRequiredScopes] returns start with a base scope. *)
Lemma getRequiredScopes_head allTools settings :
  exists rest, Tools.getRequiredScopes allTools settings = "User.Read" :: rest.
Proof.
  unfold Tools.getRequiredScopes.
  destruct (addTools_spec (Tools.getFilteredTools allTools settings)
              (Tools.newSet Tools.BASE_SCOPES)) as (_ & _ & [rest Hpre]).
  cbv zeta in Hpre. rewrite Hpre. by eexists.
Qed.

Lemma truthy_join sep x rest : truthy x = true -> truthy (join sep (x :: rest)) = true.
Proof. destruct x; [done|]. by destruct rest. Qed.

(** X12: with the scopes computed by [getRequiredScopes], the redirect of
    [GET /authorize] always carries a non-empty [scope], whatever the
    caller sent and whatever the tool configuration is. *)
Theorem authorize_scope_never_empty allTools settings config :
  truthy_opt
    (URLSearchParams.get "scope"
       (searchParams
          (authorize newURL (Tools.getRequiredScopes allTools settings) config query)))
  = true.
Proof.
  unfold authorize. cbn [searchParams].
  set (ps := URLSearchParams.set "client_id" _ _).
  destruct (truthy_opt (URLSearchParams.get "scope" ps)) eqn:Hscope; cbn [negb].
  - done.
  - rewrite get_set_same. cbn [truthy_opt].
    destruct (getRequiredScopes_head allTools settings) as [rest ->].
    by apply truthy_join.
Qed.

End RedirectFacts.

(** ** Discovery documents and the token endpoint *)
Section DiscoveryFacts.
Import Js Config Metadata Discovery.


Variable fetch : string -> URLSearchParams.t -> FetchResult.
Variable scopes : list string.


(** X15: what [POST /token] reads from the body depends on the grant.
    For a [refresh_token] grant only [refresh_token] matters; for an
    [authorization_code] grant only [code], [redirect_uri] and
    [code_verifier]; and in general nothing beyond these and
    [grant_type].  Any other field of the body, such as [scope] or
    [resource], has no effect and is never sent upstream. *)
Theorem token_reads_by_grant config body body' :
  body' !! "grant_type" = body !! "grant_type" ->
  (body !! "grant_type" = Some "refresh_token" ->
   body' !! "refresh_token" = body !! "refresh_token" ->
   token fetch config body' = token fetch config body)
  /\
  (body !! "grant_type" = Some "authorization_code" ->
   body' !! "code" = body !! "code" ->
   body' !! "redirect_uri" = body !! "redirect_uri" ->
   body' !! "code_verifier" = body !! "code_verifier" ->
   token fetch config body' = token fetch config body)
  /\
  (body !! "grant_type" <> Some "refresh_token" ->
   body !! "grant_type" <> Some "authorization_code" ->
   token fetch config body' = token fetch config body).
Proof.
  intros Hg. unfold token. rewrite Hg. split; [|split].
  - intros Hrt Hr. rewrite Hrt, Hr. cbn [truthy_opt truthy default from_option id negb].
    by repeat case_decide.
  - intros Hac Hc Hr Hv. rewrite Hac, Hc, Hr, Hv. by repeat case_decide.
  - intros Hnr Hna.
    destruct (negb (truthy_opt (body !! "grant_type"))); [done|].
    destruct (body !! "grant_type") as [g|]; cbn [default from_option id].
    + repeat case_decide; congruence.
    + by repeat case_decide.
Qed.

End DiscoveryFacts.

(** ** Loading the configuration *)
Section EnvironmentFacts.
Import Js Environment.

(** A string that is empty or starts with something other than white
    space is left alone by [trimStart]. *)
Lemma trimStart_fixed c s :
  isWhiteSpace c = false -> trimStart (String c s) = String c s.
Proof. intros H. cbn. by rewrite H. Qed.

Lemma trimStart_head s :
  trimStart s = EmptyString \/
  exists c r, trimStart s = String c r /\ isWhiteSpace c = false.
Proof.
  induction s as [|c s IH]; cbn; [by left|].
  destruct (isWhiteSpace c) eqn:Hc; [done|]. right. by exists c, s.
Qed.

Lemma trimEnd_head c s :
  isWhiteSpace c = false -> exists r, trimEnd (String c s) = String c r.
Proof.
  intros Hc. cbn. destruct (trimEnd s); [rewrite Hc|]; by eexists.
Qed.

Lemma trimEnd_idem s : trimEnd (trimEnd s) = trimEnd s.
Proof.
  induction s as [|c s IH]; [done|]. cbn [trimEnd].
  destruct (trimEnd s) as [|d r] eqn:Hr.
  - destruct (isWhiteSpace c) eqn:Hc; [done|]. cbn. by rewrite Hc.
  - cbn [trimEnd]. cbn [trimEnd] in IH. by rewrite IH.
Qed.

(** [trim] is idempotent: a trimmed string has nothing left to trim. *)
Lemma trim_idem s : trim (trim s) = trim s.
Proof.
  unfold trim. destruct (trimStart_head s) as [->|(c & r & -> & Hc)]; [done|].
  destruct (trimEnd_head c r Hc) as [r' Hr']. rewrite Hr'.
  rewrite trimStart_fixed by done. rewrite <- Hr'. apply trimEnd_idem.
Qed.

Lemma includes_char_cons c d s :
  includes (String c EmptyString) (String d s) =
    Ascii.eqb c d || includes (String c EmptyString) s.
Proof. cbn. by destruct (Ascii.eqb c d). Qed.

Lemma includes_trimStart c s :
  includes (String c EmptyString) s = false ->
  includes (String c EmptyString) (trimStart s) = false.
Proof.
  induction s as [|d s IH]; [done|]. rewrite includes_char_cons.
  intros [Hd Hs]%orb_false_iff. cbn [trimStart].
  destruct (isWhiteSpace d); [auto|]. rewrite includes_char_cons. by rewrite Hd, Hs.
Qed.

Lemma includes_trimEnd c s :
  includes (String c EmptyString) s = false ->
  includes (String c EmptyString) (trimEnd s) = false.
Proof.
  induction s as [|d s IH]; [done|]. rewrite includes_char_cons.
  intros [Hd Hs]%orb_false_iff. cbn [trimEnd]. specialize (IH Hs).
  destruct (trimEnd s) as [|e r].
  - destruct (isWhiteSpace d); [done|]. rewrite includes_char_cons. by rewrite Hd.
  - rewrite includes_char_cons. by rewrite Hd, IH.
Qed.

(** No piece of [s.split(sep)] contains the separator. *)
Lemma split_pieces sep s p :
  p ∈ split sep s -> includes (String sep EmptyString) p = false.
Proof.
  revert p. induction s as [|c s IH]; intros p; cbn [split].
  - by intros ->%list_elem_of_singleton.
  - destruct (Ascii.eqb c sep) eqn:Hc.
    + intros [->|Hp]%elem_of_cons; [done | by apply IH].
    + destruct (split sep s) as [|x xs].
      * intros ->%list_elem_of_singleton. rewrite includes_char_cons.
        by rewrite Ascii.eqb_sym, Hc.
      * intros [->|Hp]%elem_of_cons.
        -- rewrite includes_char_cons, Ascii.eqb_sym, Hc. apply IH. by left.
        -- apply IH. by right.
Qed.

Lemma orElseStr_nonempty o d :
  d <> EmptyString -> Metadata.orElseStr o d <> EmptyString.
Proof.
  intros Hd. unfold Metadata.orElseStr. destruct (truthy_opt o) eqn:Ho; [|done].
  by apply truthy_opt_true_iff in Ho as (s & -> & Hs).
Qed.

Lemma split_nonempty sep s : split sep s <> [].
Proof.
  destruct s as [|c s]; cbn [split]; [done|].
  destruct (Ascii.eqb c sep); [done|]. by destruct (split sep s).
Qed.

(** The pieces of a string of commas and blanks are blank. *)
Lemma split_blank s p :
  onlyCommasAndBlanks s = true -> p ∈ split ","%char s -> allWhiteSpace p = true.
Proof.
  revert p. induction s as [|c s IH]; intros p; cbn [onlyCommasAndBlanks split].
  - by intros _ ->%list_elem_of_singleton.
  - intros [Hc Hs]%andb_true_iff.
    destruct (Ascii.eqb c ","%char) eqn:Hcomma.
    + intros [->|Hp]%elem_of_cons; [done | by apply IH].
    + cbn [orb] in Hc. destruct (split ","%char s) as [|x xs] eqn:Hsplit.
      * by destruct (split_nonempty ","%char s).
      * intros [->|Hp]%elem_of_cons.
        -- cbn [allWhiteSpace]. rewrite Hc. cbn [andb]. apply IH; [done | by left].
        -- apply IH; [done | by right].
Qed.

Lemma filter_nonempty_blank (l : list string) :
  (forall t, t ∈ l -> t = EmptyString) ->
  filter (fun t => (0 < String.length t)%nat) l = [].
Proof.
  induction l as [|x l IH]; intros Hall; [done|].
  rewrite filter_cons. rewrite (Hall x) by (by left). cbn.
  rewrite decide_False by lia. apply IH. intros t Ht. apply Hall. by right.
Qed.

(** X16: the comma-separated settings ([MS365_MCP_ALLOWED_TENANTS],
    [MS365_MCP_ENABLED_TOOLS]) are parsed into entries that are never
    empty, carry no white space at either end and contain no comma; a
    variable that is unset, empty, or made of commas and blanks only
    gives the empty list. *)
Theorem parseList_entries :
  (forall value t, t ∈ parseList value ->
     t <> EmptyString /\ trim t = t /\ includes "," t = false)
  /\
  parseList None = [] /\ parseList (Some EmptyString) = [] /\
  parseList (Some " , ,, ") = []
  /\
  (forall s, onlyCommasAndBlanks s = true -> parseList (Some s) = []).
Proof.
  split; [|split; [by vm_compute|split; [by vm_compute|split; [by vm_compute|]]]].
  2:{ intros s Hs. unfold parseList. apply filter_nonempty_blank.
      intros t (piece & -> & Hpiece)%list_elem_of_fmap.
      apply trim_empty_iff. apply split_blank with (Metadata.orElseStr (Some s) EmptyString);
        [|done].
      unfold Metadata.orElseStr. by destruct (truthy_opt (Some s)). }
  intros value t. unfold parseList.
  rewrite list_elem_of_filter, list_elem_of_fmap.
  intros [Hlen (piece & -> & Hpiece)]. split; [|split].
  - intros Ht. rewrite Ht in Hlen. cbn in Hlen. lia.
  - apply trim_idem.
  - unfold trim. by apply includes_trimEnd, includes_trimStart, split_pieces with
      (Metadata.orElseStr value EmptyString).
Qed.

Variable parseInt10 : string -> option Z.

(** X17: [getConfig] with an empty cache fails exactly when
    [MS365_MCP_CLIENT_ID] is unset or empty, and then caches nothing.
    When it succeeds, the client id, tenant id, host, log level and CORS
    origin of the configuration are non-empty, the client secret is
    absent rather than empty, the allowed tenants are non-empty and
    trimmed, and the configuration is cached: every later call returns
    it, whatever the environment has become. *)
Theorem getConfig_invariants env :
  ((env !! "MS365_MCP_CLIENT_ID" = None \/
    env !! "MS365_MCP_CLIENT_ID" = Some EmptyString) <->
   exists m, getConfig parseInt10 env None = (Throws (OtherError m), None))
  /\
  (forall config cache,
     getConfig parseInt10 env None = (Returns config, cache) ->
     cache = Some config /\
     env !! "MS365_MCP_CLIENT_ID" = Some (clientId config) /\
     clientId config <> EmptyString /\
     clientSecret config <> Some EmptyString /\
     tenantId config <> EmptyString /\
     host config <> EmptyString /\
     logLevel config <> EmptyString /\
     corsOrigin config <> EmptyString /\
     (forall t, t ∈ allowedTenants config -> t <> EmptyString /\ trim t = t) /\
     (forall env', getConfig parseInt10 env' cache = (Returns config, cache))).
Proof.
  unfold getConfig. split.
  - rewrite <- truthy_opt_false_iff.
    destruct (truthy_opt (env !! "MS365_MCP_CLIENT_ID")); cbn [negb].
    + split; [done | by intros [m [=]]].
    + split; [by eexists | done].
  - intros config cache.
    destruct (truthy_opt (env !! "MS365_MCP_CLIENT_ID")) eqn:Hid; cbn [negb]; [|done].
    apply truthy_opt_true_iff in Hid as (cid & Hcid & Hne).
    intros [= <- <-]. cbn. rewrite Hcid. cbn.
    split; [done|]. split; [done|]. split; [done|]. split.
    { unfold orUndefined.
      destruct (truthy_opt (env !! "MS365_MCP_CLIENT_SECRET")) eqn:Hs; [|done].
      apply truthy_opt_true_iff in Hs as (x & -> & Hx). congruence. }
    do 4 (split; [by apply orElseStr_nonempty|]).
    split; [|done].
    intros t Ht. unfold parseList in Ht.
    apply list_elem_of_filter in Ht as [Hlen (piece & -> & _)%list_elem_of_fmap].
    split; [|apply trim_idem].
    intros Hempty. rewrite Hempty in Hlen. cbn in Hlen. lia.
Qed.

End EnvironmentFacts.

(** ** The further properties on sample inputs *)
Section MoreExamples.
Import Js Middleware Config Metadata Samples Fixtures.

Lemma required_response_statuses_witness :
  (403 = 401 \/ 403 = 403 \/ 403 = 500) /\
  (403 = 403 <-> "tenant_not_allowed" = "tenant_not_allowed") /\
  (403 = 500 ->
     "tenant_not_allowed" = "server_error" /\
     "Tenant is not allowed" = "Authentication failed due to internal error").
Proof.
  apply (required_response_statuses
           (rejecting "tenant_not_allowed" "Tenant is not allowed") identify
           (request (Some "Bearer aaa.bbb.ccc"))
           403 "tenant_not_allowed" "Tenant is not allowed").
  vm_compute. apply elem_of_cons. right. apply elem_of_cons. by left.
Defined.

Lemma mcp_guard_never_fires_witness :
  mcpRoute accepting identify passThrough (Server.handleMcpRequest silent)
      (request (Some "Bearer aaa.bbb.ccc"))
    = mcpRoute accepting identify passThrough silent
        (request (Some "Bearer aaa.bbb.ccc")).
Proof.
  apply (mcp_guard_never_fires accepting identify passThrough silent).
  intros r. reflexivity.
Defined.

(** Without the middleware in front, the guard does fire. *)
Example guard_without_middleware :
  Server.handleMcpRequest silent (request (Some "Bearer aaa.bbb.ccc"))
    = (request (Some "Bearer aaa.bbb.ccc"),
       [SendJson 401 "invalid_token" "No valid access token provided"]).
Proof. reflexivity. Qed.

(** An expired token is an anonymous request to the optional middleware. *)
Example optional_ignores_rejection :
  OptionalAuth.optionalAuthMiddleware
      (rejecting "expired_token" "Token has expired") identify
      (request (Some "Bearer aaa.bbb.ccc"))
    = (request (Some "Bearer aaa.bbb.ccc"),
       [CallParseToken "aaa.bbb.ccc"; CallNext]).
Proof. reflexivity. Qed.

(** Read-only mode wins over the allowlist, and the scope of the write
    tool is not requested. *)
Example read_only_tools :
  Tools.getFilteredTools someTools readOnlyMail = [listMail] /\
  Tools.getRequiredScopes someTools readOnlyMail
    = ["User.Read"; "offline_access"; "Mail.Read"] /\
  Tools.getRequiredScopes someTools everything
    = ["User.Read"; "offline_access"; "Mail.Read"; "Mail.Send"; "Calendars.Read"].
Proof. by vm_compute. Qed.

Lemma registerAll_keeps_every_client_witness :
  let '(st', replies) :=
    Registry.registerAll sampleUUID threeRequests initialState in
  NoDup (Reply.client_id <$> replies) /\
  (forall i nowMs body reply,
     threeRequests !! i = Some (nowMs, body) -> replies !! i = Some reply ->
     getRegisteredClient (Reply.client_id reply) st'
       = Some (Registry.stored body reply)).
Proof.
  apply (registerAll_keeps_every_client sampleUUID threeRequests initialState).
  apply (bool_decide_unpack _). vm_compute. exact I.
Defined.

Lemma authorize_exact_parameters_witness :
  searchParams (authorize plainURL ["Mail.Read"] gateway noisyQuery)
    = [("response_type", "code"); ("redirect_uri", "X");
       ("client_id", "gateway-app-id"); ("scope", "Mail.Read")].
Proof.
  apply (authorize_exact_parameters noisyQuery plainURL ["Mail.Read"] gateway).
  reflexivity.
Defined.

Lemma token_reads_by_grant_witness :
  token upstream gateway
      (<["scope" := "Mail.Send"]> (<["code" := "stray"]> refreshGrant))
    = token upstream gateway refreshGrant.
Proof.
  destruct (token_reads_by_grant upstream gateway refreshGrant
              (<["scope" := "Mail.Send"]> (<["code" := "stray"]> refreshGrant)))
    as (Hrefresh & _ & _); [reflexivity|].
  apply Hrefresh; reflexivity.
Defined.

(** The discovery documents behind a proxy. *)
Example discovery_behind_proxy :
  Discovery.issuer (Discovery.authorizationServer ["User.Read"] proxied)
    = "https://mcp.example.com" /\
  Discovery.resource (Discovery.protectedResource ["User.Read"] proxied)
    = "https://mcp.example.com/mcp".
Proof. by vm_compute. Qed.

(** The sample environment: blanks and empty pieces of the allowlist are
    dropped, an empty secret is no secret, and the defaults apply. *)
Example getConfig_sample :
  exists config,
    Environment.getConfig parseDigits someEnv None = (Returns config, Some config) /\
    Environment.allowedTenants config = ["contoso-tid"; "fabrikam-tid"] /\
    Environment.clientSecret config = None /\
    Environment.tenantId config = "common" /\
    Environment.port config = Some 3000 /\
    Environment.readOnlyMode config = false.
Proof. eexists. by vm_compute. Qed.

End MoreExamples.

(** ** The token endpoint on parsed bodies *)
Section TokenEndpointFacts.
Import Js Config TokenEndpoint.

Variable fetch : string -> URLSearchParams.t -> Upstream.

(** The [try] block contacts upstream once and then answers once. *)
Lemma forward_once endpoint params :
  exists answer,
    forward fetch endpoint params = [Fetch endpoint params; answer] /\
    isFetch answer = false.
Proof.
  unfold forward.
  destruct (fetch endpoint params) as [[] status data|m]; cbn [negb]; eauto.
  destruct data; eauto.
Qed.

Lemma elem_of_forward_once url params endpoint ps :
  Fetch url params ∈ forward fetch endpoint ps -> url = endpoint /\ params = ps.
Proof.
  destruct (forward_once endpoint ps) as (answer & -> & Hans).
  rewrite !elem_of_cons, elem_of_nil.
  intros [[= -> ->] | [<- | []]]; [done | discriminate].
Qed.

Lemma truthy_opt_Some o :
  truthy_opt o = true <-> exists v, o = Some v /\ truthy v = true.
Proof.
  destruct o as [v|]; cbn; split; try done.
  - intros Hv. by exists v.
  - by intros (v' & [= <-] & Hv).
  - by intros (v' & [=] & _).
Qed.

(** A field that is truthy and converts is set. *)
Lemma setField_converts name o ps :
  truthy_opt o = true -> converts o = true ->
  exists s, setField name o ps = Some (URLSearchParams.set name s ps).
Proof.
  intros (v & -> & Hv)%truthy_opt_Some. cbn. rewrite Hv.
  intros [s Hs]%bool_decide_eq_true. unfold setParam. rewrite Hs. by eexists.
Qed.

Lemma setParamIfTruthy_converts name o ps :
  converts o = true -> is_Some (setParamIfTruthy name o ps).
Proof.
  destruct o as [v|]; cbn; [|done]. destruct (truthy v); [|done].
  intros [s Hs]%bool_decide_eq_true. unfold setParam. by rewrite Hs.
Qed.

Lemma not_elem_of_rejects url params : Fetch url params ∉ [Rejects].
Proof. by intros [=]%list_elem_of_singleton. Qed.

Lemma elem_of_orReject url params o k :
  Fetch url params ∈ orReject o k -> exists ps, o = Some ps /\ Fetch url params ∈ k ps.
Proof.
  destruct o as [ps|]; cbn; [by exists ps|]. by intros ?%not_elem_of_rejects.
Qed.

(** C3 (as amended): [POST /token] checks the grant before it contacts
    upstream.  A [grant_type] that is missing or falsy is answered 400
    [invalid_request]; any other value than the strings
    [authorization_code] and [refresh_token], if it converts to a string,
    is answered 400 [unsupported_grant_type].  For an
    [authorization_code] grant upstream is contacted only when [code] and
    [redirect_uri] are both present, and truthy; when one of them is
    absent or falsy the answer is 400 [invalid_request]; when both are
    truthy and the fields convert, there is one upstream call followed by
    one answer.  Likewise for a [refresh_token] grant and its
    [refresh_token].  A 400 answer is all that happens. *)
Theorem token_grant_validation config body :
  let es := token fetch config body in
  let endpoint := tokenEndpoint (getAuthEndpoints (tenantId config)) in
  let forwarded :=
    exists params answer,
      es = [Fetch endpoint params; answer] /\ isFetch answer = false in
  (truthy_opt (body !! "grant_type") = false ->
     es = [SendError 400 "invalid_request" "grant_type parameter is required"])
  /\
  (forall g s, body !! "grant_type" = Some g -> truthy g = true ->
     isString "authorization_code" g = false ->
     isString "refresh_token" g = false ->
     toString g = Some s ->
     es = [SendError 400 "unsupported_grant_type"
             ("Grant type '" +:+ s +:+ "' is not supported")])
  /\
  (body !! "grant_type" = Some (JStr "authorization_code") ->
     (forall url params, Fetch url params ∈ es ->
        exists c r, body !! "code" = Some c /\ body !! "redirect_uri" = Some r /\
                    truthy c = true /\ truthy r = true) /\
     (truthy_opt (body !! "code") = false \/
      truthy_opt (body !! "redirect_uri") = false ->
      es = [SendError 400 "invalid_request"
              "code and redirect_uri are required for authorization_code grant"]) /\
     (truthy_opt (body !! "code") = true ->
      truthy_opt (body !! "redirect_uri") = true ->
      converts (body !! "code") = true ->
      converts (body !! "redirect_uri") = true ->
      converts (body !! "code_verifier") = true -> forwarded))
  /\
  (body !! "grant_type" = Some (JStr "refresh_token") ->
     (forall url params, Fetch url params ∈ es ->
        exists t, body !! "refresh_token" = Some t /\ truthy t = true) /\
     (truthy_opt (body !! "refresh_token") = false ->
      es = [SendError 400 "invalid_request"
              "refresh_token is required for refresh_token grant"]) /\
     (truthy_opt (body !! "refresh_token") = true ->
      converts (body !! "refresh_token") = true -> forwarded)).
Proof.
  cbv zeta. unfold token. split; [|split; [|split]].
  - destruct (body !! "grant_type") as [g|]; cbn [truthy_opt]; [|done].
    by intros ->.
  - intros g s -> Hg Hac Hrt Hs. rewrite Hg. cbn [negb].
    unfold setParam. rewrite Hs. cbn [orReject default from_option id].
    by rewrite Hac, Hrt.
  - intros ->. cbn [truthy Js.truthy negb setParam toString orReject isString].
    rewrite bool_decide_eq_true_2 by done.
    split; [|split].
    + intros url params.
      destruct (truthy_opt (body !! "code")) eqn:Hc; cbn [negb orb];
        [|by intros [=]%list_elem_of_singleton].
      destruct (truthy_opt (body !! "redirect_uri")) eqn:Hr; cbn [negb];
        [|by intros [=]%list_elem_of_singleton].
      intros _.
      apply truthy_opt_Some in Hc as (c & Hc & Hct).
      apply truthy_opt_Some in Hr as (r & Hr & Hrt). by exists c, r.
    + by intros [-> | ->]; cbn [negb orb]; [|rewrite orb_true_r].
    + intros Hc Hr Hcc Hrc Hvc. rewrite Hc, Hr. cbn [negb orb].
      destruct (setField_converts "code" (body !! "code")
        (Metadata.setIfTruthy "client_secret" (clientSecret config)
           (URLSearchParams.set "grant_type" "authorization_code"
              (URLSearchParams.set "client_id" (clientId config) []))) Hc Hcc)
        as [sc ->]. cbn [orReject].
      destruct (setField_converts "redirect_uri" (body !! "redirect_uri")
        (URLSearchParams.set "code" sc
           (Metadata.setIfTruthy "client_secret" (clientSecret config)
              (URLSearchParams.set "grant_type" "authorization_code"
                 (URLSearchParams.set "client_id" (clientId config) [])))) Hr Hrc)
        as [sr ->]. cbn [orReject].
      destruct (setParamIfTruthy_converts "code_verifier" (body !! "code_verifier")
        (URLSearchParams.set "redirect_uri" sr
           (URLSearchParams.set "code" sc
              (Metadata.setIfTruthy "client_secret" (clientSecret config)
                 (URLSearchParams.set "grant_type" "authorization_code"
                    (URLSearchParams.set "client_id" (clientId config) []))))) Hvc)
        as [ps ->]. cbn [orReject].
      destruct (forward_once (tokenEndpoint (getAuthEndpoints (tenantId config))) ps)
        as (answer & -> & Hans). eauto.
  - intros ->. cbn [truthy Js.truthy negb setParam toString orReject isString].
    rewrite bool_decide_eq_false_2 by done.
    rewrite bool_decide_eq_true_2 by done.
    split; [|split].
    + intros url params.
      destruct (truthy_opt (body !! "refresh_token")) eqn:Ht; cbn [negb];
        [|by intros [=]%list_elem_of_singleton].
      intros _. by apply truthy_opt_Some in Ht.
    + by intros ->.
    + intros Ht Htc. rewrite Ht. cbn [negb].
      destruct (setField_converts "refresh_token" (body !! "refresh_token")
        (Metadata.setIfTruthy "client_secret" (clientSecret config)
           (URLSearchParams.set "grant_type" "refresh_token"
              (URLSearchParams.set "client_id" (clientId config) []))) Ht Htc)
        as [st ->]. cbn [orReject].
      destruct (forward_once (tokenEndpoint (getAuthEndpoints (tenantId config)))
        (URLSearchParams.set "refresh_token" st
           (Metadata.setIfTruthy "client_secret" (clientSecret config)
              (URLSearchParams.set "grant_type" "refresh_token"
                 (URLSearchParams.set "client_id" (clientId config) [])))))
        as (answer & -> & Hans). eauto.
Qed.

(** X14: once [POST /token] has contacted upstream, it has done so once,
    and it answers as follows.  A success is answered 200 with
    upstream's body.  A failure status is relayed with its body
    unchanged, unless that body is JSON [null]; then, and when the call
    itself fails, the answer is the fixed 500 [server_error], in which
    the failure's message does not appear. *)
Theorem token_relays_upstream config body url params :
  Fetch url params ∈ token fetch config body ->
  token fetch config body =
    [Fetch url params;
     match fetch url params with
     | Responded true _ data => SendBody 200 data
     | Responded false _ JNull =>
         SendError 500 "server_error" "Token exchange failed"
     | Responded false status data => SendBody status data
     | Threw _ => SendError 500 "server_error" "Token exchange failed"
     end].
Proof.
  assert (forall endpoint ps,
    Fetch url params ∈ forward fetch endpoint ps ->
    forward fetch endpoint ps =
      [Fetch url params;
       match fetch url params with
       | Responded true _ data => SendBody 200 data
       | Responded false _ JNull =>
           SendError 500 "server_error" "Token exchange failed"
       | Responded false status data => SendBody status data
       | Threw _ => SendError 500 "server_error" "Token exchange failed"
       end]) as Hfwd.
  { intros endpoint ps Hin.
    destruct (elem_of_forward_once url params endpoint ps Hin) as [-> ->].
    unfold forward. destruct (fetch endpoint ps) as [[] status data|m]; [done| |done].
    by destruct data. }
  unfold token.
  destruct (body !! "grant_type") as [g|]; [|by intros [=]%list_elem_of_singleton].
  destruct (negb (truthy g)); [by intros [=]%list_elem_of_singleton|].
  intros (ps0 & Hps0 & Hin)%elem_of_orReject. rewrite Hps0. cbn [orReject].
  revert Hin. destruct (isString "authorization_code" g).
  - destruct (_ || _); [by intros [=]%list_elem_of_singleton|].
    intros (ps1 & Hps1 & Hin)%elem_of_orReject. rewrite Hps1. cbn [orReject].
    apply elem_of_orReject in Hin as (ps2 & Hps2 & Hin). rewrite Hps2. cbn [orReject].
    apply elem_of_orReject in Hin as (ps3 & Hps3 & Hin). rewrite Hps3. cbn [orReject].
    by apply Hfwd.
  - destruct (isString "refresh_token" g); [|by intros [=]%list_elem_of_singleton].
    destruct (negb _); [by intros [=]%list_elem_of_singleton|].
    intros (ps1 & Hps1 & Hin)%elem_of_orReject. rewrite Hps1. cbn [orReject].
    by apply Hfwd.
Qed.

End TokenEndpointFacts.

Section TokenEndpointRefinement.
Import Js Config TokenEndpoint.

Variable fetch : string -> URLSearchParams.t -> Metadata.FetchResult.

Lemma forward_embeds endpoint params :
  forward (liftFetch fetch) endpoint params =
    embed <$> Metadata.forward fetch endpoint params.
Proof.
  unfold forward, Metadata.forward, liftFetch.
  by destruct (fetch endpoint params) as [[] status data|m].
Qed.

Lemma truthy_opt_embeds (o : option string) :
  truthy_opt (JStr <$> o) = Js.truthy_opt o.
Proof. by destruct o. Qed.

Lemma setField_embeds name (o : option string) ps :
  Js.truthy_opt o = true ->
  setField name (JStr <$> o) ps =
    Some (URLSearchParams.set name (default EmptyString o) ps).
Proof. by destruct o. Qed.

Lemma setParamIfTruthy_embeds name (o : option string) ps :
  setParamIfTruthy name (JStr <$> o) ps = Some (Metadata.setIfTruthy name o ps).
Proof. destruct o as [v|]; cbn; [|done]. by destruct (Js.truthy v). Qed.

(** On bodies whose fields are all strings, and with upstream bodies that
    are not [null], the handler is the one of [Metadata]: what is proved
    there about string-valued bodies holds of this handler too. *)
Lemma token_embeds config (body : gmap string string) :
  token (liftFetch fetch) config (JStr <$> body) =
    embed <$> Metadata.token fetch config body.
Proof.
  unfold token, Metadata.token. rewrite !lookup_fmap.
  destruct (body !! "grant_type") as [g|] eqn:Hg;
    cbn [fmap option_fmap option_map Js.truthy_opt default from_option id]; [|done].
  cbn [truthy]. destruct (Js.truthy g) eqn:Hgt; cbn [negb]; [|done].
  cbn [setParam toString orReject isString].
  destruct (decide (g = "authorization_code")) as [->|Hac].
  - rewrite bool_decide_eq_true_2 by done. rewrite !truthy_opt_embeds.
    destruct (Js.truthy_opt (body !! "code")) eqn:Hc; cbn [negb orb]; [|done].
    destruct (Js.truthy_opt (body !! "redirect_uri")) eqn:Hr; cbn [negb]; [|done].
    rewrite setField_embeds by done. cbn [orReject].
    rewrite setField_embeds by done. cbn [orReject].
    rewrite setParamIfTruthy_embeds. cbn [orReject].
    apply forward_embeds.
  - rewrite bool_decide_eq_false_2 by done.
    destruct (decide (g = "refresh_token")) as [->|Hrt].
    + rewrite bool_decide_eq_true_2 by done. rewrite !truthy_opt_embeds.
      destruct (Js.truthy_opt (body !! "refresh_token")) eqn:Ht; cbn [negb]; [|done].
      rewrite setField_embeds by done. cbn [orReject].
      apply forward_embeds.
    + by rewrite bool_decide_eq_false_2 by done.
Qed.

End TokenEndpointRefinement.

Section TokenEndpointExamples.
Import Js Config TokenEndpoint Samples Fixtures.

(** A body without [grant_type] is answered [invalid_request]. *)
Lemma missing_grant_type_is_invalid_request fetch config :
  token fetch config ∅
    = [SendError 400 "invalid_request" "grant_type parameter is required"].
Proof. reflexivity. Qed.

(** A [grant_type] that cannot be converted to a string makes
    [params.set] throw before the grant is looked at: the handler leaves
    without an answer. *)
Lemma hostile_grant_type_rejects fetch config :
  token fetch config hostileBody = [Rejects].
Proof. reflexivity. Qed.

(** C3, as stated, fails on two bodies whose grant is neither of the two
    supported ones.  Without [grant_type] the answer is
    [invalid_request], not [unsupported_grant_type]; with a [grant_type]
    that cannot be converted to a string there is no answer from the
    handler at all. *)
Lemma token_grant_type_not_as_claimed :
  ((∅ : gmap string JsValue) !! "grant_type" <> Some (JStr "authorization_code") /\
   (∅ : gmap string JsValue) !! "grant_type" <> Some (JStr "refresh_token") /\
   forall fetch config,
     token fetch config ∅
       = [SendError 400 "invalid_request" "grant_type parameter is required"] /\
     ~ exists d, token fetch config ∅ = [SendError 400 "unsupported_grant_type" d])
  /\
  (hostileBody !! "grant_type" <> Some (JStr "authorization_code") /\
   hostileBody !! "grant_type" <> Some (JStr "refresh_token") /\
   truthy_opt (hostileBody !! "grant_type") = true /\
   forall fetch config,
     token fetch config hostileBody = [Rejects] /\
     ~ exists d,
         token fetch config hostileBody = [SendError 400 "unsupported_grant_type" d]).
Proof.
  split.
  - split; [done|]. split; [done|]. intros fetch config.
    rewrite missing_grant_type_is_invalid_request. split; [done|]. by intros [d [=]].
  - split; [done|]. split; [done|]. split; [done|]. intros fetch config.
    rewrite hostile_grant_type_rejects. split; [done|]. by intros [d [=]].
Qed.

Lemma token_grant_validation_witness :
  token answering gateway passwordBody
    = [SendError 400 "unsupported_grant_type" "Grant type 'password' is not supported"]
  /\
  token answering gateway (delete "grant_type" passwordBody)
    = [SendError 400 "invalid_request" "grant_type parameter is required"]
  /\
  (exists params answer,
     token answering gateway codeBody
       = [Fetch "https://login.microsoftonline.com/common/oauth2/v2.0/token" params;
          answer] /\ isFetch answer = false)
  /\
  token answering gateway (delete "redirect_uri" codeBody)
    = [SendError 400 "invalid_request"
         "code and redirect_uri are required for authorization_code grant"]
  /\
  token answering gateway (delete "refresh_token" refreshBody)
    = [SendError 400 "invalid_request"
         "refresh_token is required for refresh_token grant"].
Proof.
  split; [|split; [|split; [|split]]].
  - destruct (token_grant_validation answering gateway passwordBody)
      as (_ & Hother & _).
    apply (Hother (JStr "password") "password"); reflexivity.
  - destruct (token_grant_validation answering gateway (delete "grant_type" passwordBody))
      as (Hmissing & _).
    apply Hmissing. reflexivity.
  - destruct (token_grant_validation answering gateway codeBody)
      as (_ & _ & Hcode & _).
    destruct (Hcode eq_refl) as (_ & _ & Hforwarded).
    apply Hforwarded; reflexivity.
  - destruct (token_grant_validation answering gateway (delete "redirect_uri" codeBody))
      as (_ & _ & Hcode & _).
    destruct (Hcode eq_refl) as (_ & Hrejected & _).
    apply Hrejected. right. reflexivity.
  - destruct (token_grant_validation answering gateway (delete "refresh_token" refreshBody))
      as (_ & _ & _ & Hrefresh).
    destruct (Hrefresh eq_refl) as (_ & Hrejected & _).
    apply Hrejected. reflexivity.
Defined.

(** An empty array is present and truthy: the grant is forwarded, with
    the empty string as refresh token. *)
Example token_array_refresh_token :
  token answering gateway arrayRefreshBody
    = [Fetch "https://login.microsoftonline.com/common/oauth2/v2.0/token"
         [("client_id", "gateway-app-id"); ("grant_type", "refresh_token");
          ("client_secret", "gateway-secret"); ("refresh_token", EmptyString)];
       SendBody 200 (JObj [("access_token", JStr "at-1")])].
Proof. vm_compute. reflexivity. Qed.

Lemma token_relays_upstream_witness :
  token unreachable gateway refreshBody
    = [Fetch "https://login.microsoftonline.com/common/oauth2/v2.0/token"
         [("client_id", "gateway-app-id"); ("grant_type", "refresh_token");
          ("client_secret", "gateway-secret"); ("refresh_token", "r1")];
       SendError 500 "server_error" "Token exchange failed"]
  /\
  token refusing gateway refreshBody
    = [Fetch "https://login.microsoftonline.com/common/oauth2/v2.0/token"
         [("client_id", "gateway-app-id"); ("grant_type", "refresh_token");
          ("client_secret", "gateway-secret"); ("refresh_token", "r1")];
       SendBody 400 (JObj [("error", JStr "invalid_grant")])]
  /\
  token failingWithNull gateway refreshBody
    = [Fetch "https://login.microsoftonline.com/common/oauth2/v2.0/token"
         [("client_id", "gateway-app-id"); ("grant_type", "refresh_token");
          ("client_secret", "gateway-secret"); ("refresh_token", "r1")];
       SendError 500 "server_error" "Token exchange failed"].
Proof.
  split; [|split].
  - apply (token_relays_upstream unreachable gateway refreshBody
             "https://login.microsoftonline.com/common/oauth2/v2.0/token"
             [("client_id", "gateway-app-id"); ("grant_type", "refresh_token");
              ("client_secret", "gateway-secret"); ("refresh_token", "r1")]).
    vm_compute. apply elem_of_cons. by left.
  - apply (token_relays_upstream refusing gateway refreshBody
             "https://login.microsoftonline.com/common/oauth2/v2.0/token"
             [("client_id", "gateway-app-id"); ("grant_type", "refresh_token");
              ("client_secret", "gateway-secret"); ("refresh_token", "r1")]).
    vm_compute. apply elem_of_cons. by left.
  - apply (token_relays_upstream failingWithNull gateway refreshBody
             "https://login.microsoftonline.com/common/oauth2/v2.0/token"
             [("client_id", "gateway-app-id"); ("grant_type", "refresh_token");
              ("client_secret", "gateway-secret"); ("refresh_token", "r1")]).
    vm_compute. apply elem_of_cons. by left.
Defined.

End TokenEndpointExamples.
